(** * CodeQueryX: segmentation, similarity search and context budgeting

    A shallow embedding of the retrieval pipeline of the repository
    ([chunker.py], [vector_store.py], [rag_engine.py]) and the properties
    its specification states about it.

    Conventions of the embedding:
    - a Python [str] is a [string]; [len] is the number of characters;
    - a Python [int] is a [Z] ([//] is [Z.div], both round down);
    - a Python [float] distance is a rational [Q] (every finite float is
      one, and the comparisons agree); NaN is outside the model;
    - a chunk or document dictionary ([Dict[str, str]]) is a
      [gmap string string]; [d.get(k, default)] is [default_get];
    - a [while] loop takes fuel and returns [None] when it runs out. *)

From Stdlib Require Import ZArith QArith String Ascii List Lia Sorted Permutation.
From Stdlib Require Import DecimalString.
From stdpp Require Import gmap strings list.

Local Open Scope string_scope.
Local Open Scope Z_scope.

(** ** Python primitives used by the sources *)

Module Py.

Definition len (s : string) : Z := Z.of_nat (String.length s).

Definition newline : ascii := Ascii.ascii_of_nat 10.
Definition nl : string := String newline EmptyString.

(** [str(n)] for an integer [n]. *)
Definition str (n : Z) : string := NilZero.string_of_int (Z.to_int n).

(** Index normalisation of a slice bound: negative bounds count from the
    end, and every bound is clipped to [0, len]. *)
Definition norm (n i : Z) : Z :=
  if i <? 0 then Z.max 0 (i + n) else Z.min i n.

(** [s[lo:hi]]. *)
Definition slice (s : string) (lo hi : Z) : string :=
  let a := norm (len s) lo in
  let b := norm (len s) hi in
  String.substring (Z.to_nat a) (Z.to_nat (b - a)) s.

(** [s[:hi]]. *)
Definition slice_to (s : string) (hi : Z) : string := slice s 0 hi.

(** [s.rfind(c)] for a one-character pattern: the highest index holding
    [c], or [-1]. *)
Fixpoint rfind_from (s : string) (c : ascii) (i last : Z) : Z :=
  match s with
  | EmptyString => last
  | String a s' =>
      rfind_from s' c (i + 1) (if Ascii.eqb a c then i else last)
  end.

Definition rfind (s : string) (c : ascii) : Z := rfind_from s c 0 (-1).

(** [d.get(k, default)]. *)
Definition default_get (d : gmap string string) (k default : string) : string :=
  match d !! k with
  | Some v => v
  | None => default
  end.

(** A string of [n] copies of one character (test data). *)
Fixpoint replicate_char (n : nat) (c : ascii) : string :=
  match n with
  | O => EmptyString
  | S n' => String c (replicate_char n' c)
  end.

(** No character of [s] is [c]. *)
Fixpoint free_of (c : ascii) (s : string) : bool :=
  match s with
  | EmptyString => true
  | String a s' => negb (Ascii.eqb a c) && free_of c s'
  end.

(** [s.rstrip(c)] for a one-character set: the trailing copies of [c]
    are removed. *)
Fixpoint rstrip_char (s : string) (c : ascii) : string :=
  match s with
  | EmptyString => EmptyString
  | String a s' =>
      match rstrip_char s' c with
      | EmptyString => if Ascii.eqb a c then EmptyString else String a EmptyString
      | r => String a r
      end
  end.

(** [s.split(c)] for a one-character separator; the result is never
    empty. *)
Fixpoint split (s : string) (c : ascii) : list string :=
  match s with
  | EmptyString => [EmptyString]
  | String a s' =>
      if Ascii.eqb a c then EmptyString :: split s' c
      else match split s' c with
           | [] => [String a EmptyString]
           | seg :: rest => String a seg :: rest
           end
  end.

(** [l[-1]] of a list of strings that is not empty. *)
Definition last_item (l : list string) : string := List.last l EmptyString.

(** [s.replace(old, new)] for a pattern [old] that is not empty: the
    occurrences are found from the left and do not overlap. [skip] counts
    the characters of an occurrence still to pass over. *)
Fixpoint replace_from (old new : string) (skip : nat) (s : string) : string :=
  match s with
  | EmptyString => EmptyString
  | String a s' =>
      match skip with
      | S k => replace_from old new k s'
      | O =>
          if String.prefix old s
          then new ++ replace_from old new (String.length old - 1) s'
          else String a (replace_from old new 0 s')
      end
  end.

Definition replace (s old new : string) : string := replace_from old new 0 s.

(** [s.startswith(p)]. *)
Definition startswith (s p : string) : bool := String.prefix p s.

(** [s.lower()] on ASCII letters. *)
Definition lower_char (a : ascii) : ascii :=
  let n := Ascii.nat_of_ascii a in
  if (Nat.leb 65 n && Nat.leb n 90)%bool then Ascii.ascii_of_nat (n + 32) else a.

Fixpoint lower (s : string) : string :=
  match s with
  | EmptyString => EmptyString
  | String a s' => String (lower_char a) (lower s')
  end.

(** The ASCII characters that [str.strip()] removes. *)
Definition isspace (a : ascii) : bool :=
  let n := Ascii.nat_of_ascii a in
  (Nat.leb 9 n && Nat.leb n 13 || Nat.leb 28 n && Nat.leb n 32)%bool.

Fixpoint lstrip (s : string) : string :=
  match s with
  | EmptyString => EmptyString
  | String a s' => if isspace a then lstrip s' else s
  end.

Fixpoint rstrip (s : string) : string :=
  match s with
  | EmptyString => EmptyString
  | String a s' =>
      match rstrip s' with
      | EmptyString => if isspace a then EmptyString else String a EmptyString
      | r => String a r
      end
  end.

(** [s.strip()]. *)
Definition strip (s : string) : string := rstrip (lstrip s).

(** [sep.join(parts)]. *)
Fixpoint join (sep : string) (parts : list string) : string :=
  match parts with
  | [] => EmptyString
  | [x] => x
  | x :: rest => x ++ sep ++ join sep rest
  end.

End Py.

(** ** Segmenter ([chunker.py]) *)

Module CodeChunker.

Record t := { chunk_size : Z; chunk_overlap : Z }.

(** [CodeChunker.__init__]: the two arguments are stored as they come. *)
Definition init (size overlap : Z) : t :=
  {| chunk_size := size; chunk_overlap := overlap |}.

(** The body of the [while start < len(text)] loop of [chunk_text]. *)
Fixpoint chunk_loop (fuel : nat) (self : t) (text : string)
         (start : Z) (chunks : list string) : option (list string) :=
  match fuel with
  | O => None
  | S fuel' =>
      if start <? Py.len text then
        let end0 := start + chunk_size self in
        let chunk0 := Py.slice text start end0 in
        let '(chunk, end1) :=
          if end0 <? Py.len text then
            let last_newline := Py.rfind chunk0 Py.newline in
            if chunk_size self / 2 <? last_newline
            then (Py.slice_to chunk0 last_newline, start + last_newline)
            else (chunk0, end0)
          else (chunk0, end0) in
        chunk_loop fuel' self text (end1 - chunk_overlap self) (chunks ++ [chunk])
      else Some chunks
  end.

Definition chunk_text (fuel : nat) (self : t) (text : string)
  : option (list string) :=
  if Py.len text <=? chunk_size self then Some [text]
  else chunk_loop fuel self text 0 [].

End CodeChunker.

(** ** Exceptions *)

(** The exceptions the sources raise or catch; [str(e)] is the message. *)
Inductive exn : Type :=
| ValueError (msg : string)
| AssertionError (msg : string)
| Exception (msg : string).

Definition exn_str (e : exn) : string :=
  match e with
  | ValueError m => m
  | AssertionError m => m
  | Exception m => m
  end.

Inductive result (A : Type) : Type :=
| Ok (a : A)
| Raise (e : exn).
Arguments Ok {A} a.
Arguments Raise {A} e.

(** ** Segmenter, over documents ([CodeChunker.chunk_documents]) *)

Module CodeChunkerDocs.
Import CodeChunker.

(** The dictionary that [chunk_documents] builds for one chunk: its five
    keys are fixed, two of them hold integers. *)
Record chunk := {
  content : string;
  filepath : string;
  filename : string;
  chunk_id : Z;
  total_chunks : Z
}.

(** The inner loop [for i, chunk in enumerate(chunks)]: [doc['filepath']]
    and [doc['filename']] are looked up for every chunk. *)
Fixpoint stamp (doc : gmap string string) (total : Z) (i : Z) (chunks : list string)
  : result (list chunk) :=
  match chunks with
  | [] => Ok []
  | text :: rest =>
      match doc !! "filepath" with
      | None => Raise (Exception "KeyError: 'filepath'")
      | Some path =>
          match doc !! "filename" with
          | None => Raise (Exception "KeyError: 'filename'")
          | Some name =>
              match stamp doc total (i + 1) rest with
              | Raise e => Raise e
              | Ok stamped =>
                  Ok ({| content := text; filepath := path; filename := name;
                         chunk_id := i; total_chunks := total |} :: stamped)
              end
          end
      end
  end.

(** [chunk_documents]: [None] when [chunk_text] runs out of fuel on some
    document, [Some (Raise _)] for a missing key. *)
Fixpoint chunk_documents (fuel : nat) (self : t) (documents : list (gmap string string))
  : option (result (list chunk)) :=
  match documents with
  | [] => Some (Ok [])
  | doc :: rest =>
      match doc !! "content" with
      | None => Some (Raise (Exception "KeyError: 'content'"))
      | Some text =>
          match chunk_text fuel self text with
          | None => None
          | Some chunks =>
              match stamp doc (Z.of_nat (List.length chunks)) 0 chunks with
              | Raise e => Some (Raise e)
              | Ok stamped =>
                  match chunk_documents fuel self rest with
                  | None => None
                  | Some (Raise e) => Some (Raise e)
                  | Some (Ok more) => Some (Ok (stamped ++ more)%list)
                  end
              end
          end
      end
  end.


End CodeChunkerDocs.

(** ** Context Budgeter and Answer Synthesizer ([rag_engine.py]) *)

Module RAGEngine.

Abbreviation doc := (gmap string string).

(** The attributes of an engine that the methods read. [tokenizer] is
    [self.tokenizer.encode]: [None] stands for a call that raises, which
    [count_tokens] catches. [client] is the blocking call to the
    generative service: the text of the first choice, or the exception
    it raised. *)
Record t := {
  max_context_tokens : Z;
  tokenizer : string -> option (list Z);
  client : string -> result string
}.

Definition count_tokens (self : t) (text : string) : Z :=
  match tokenizer self text with
  | Some toks => Z.of_nat (List.length toks)
  | None => Py.len text / 4
  end.

(** The pieces of the prompt template, shared by [base_prompt] in
    [select_chunks_within_limit] and by [create_prompt]. *)
Definition template_head : string :=
  "You are a helpful code assistant. Answer the user's question based on the provided code context.

Context from the codebase:
".

Definition template_question : string := "
User Question: ".

Definition template_tail : string := "

Instructions:
- Answer based on the provided code context
- Be specific and reference file names when relevant
- If the context doesn't contain enough information, say so
- Provide code examples if helpful
- Be concise but thorough
- If asked to summarise what the project does,explain what the project does,you do not need to cite code examples for that

Answer:".

Definition base_prompt (query : string) : string :=
  template_head ++ template_question ++ query ++ template_tail.

(** The in-prompt form of a chunk:
    [f"\n--- Code Snippet {i} from {filepath} ---\n{content}\n"]. *)
Definition chunk_text (i : Z) (filepath content : string) : string :=
  Py.nl ++ "--- Code Snippet " ++ Py.str i ++ " from " ++ filepath
    ++ " ---" ++ Py.nl ++ content ++ Py.nl.

Definition header_text (filepath : string) : string :=
  Py.nl ++ "--- Code Snippet 1 from " ++ filepath ++ " ---" ++ Py.nl ++ Py.nl.

Definition filepath_of (d : doc) : string := Py.default_get d "filepath" "unknown".
Definition content_of (d : doc) : string := Py.default_get d "content" "".

(** [sorted(l, key=...)]: a stable sort that compares keys with [<]. *)
Fixpoint insert_by {A : Type} (key : A -> Q) (x : A) (l : list A) : list A :=
  match l with
  | [] => [x]
  | y :: l' =>
      if Qle_bool (key x) (key y) then x :: y :: l'
      else y :: insert_by key x l'
  end.

Fixpoint sorted {A : Type} (key : A -> Q) (l : list A) : list A :=
  match l with
  | [] => []
  | x :: l' => insert_by key x (sorted key l')
  end.

Definition available_tokens (self : t) (query : string) : Z :=
  max_context_tokens self - count_tokens self (base_prompt query) - 200.

(** The truncated copy built when the first candidate does not fit. *)
Definition max_content_tokens (self : t) (available : Z) (d : doc) : Z :=
  available - count_tokens self (header_text (filepath_of d)).

Definition truncated_content (max_chars : Z) (content : string) : string :=
  if max_chars <? Py.len content
  then Py.slice_to content max_chars ++ "..."
  else content.

Definition truncated_doc (self : t) (available : Z) (d : doc) : doc :=
  <["content" :=
      truncated_content (max_content_tokens self available d * 3) (content_of d)]> d.

(** The [for] loop of [select_chunks_within_limit], with its two
    accumulators. *)
Fixpoint select_loop (self : t) (available : Z) (sorted_chunks : list (doc * Q))
         (selected_chunks : list doc) (current_tokens : Z) : list doc :=
  match sorted_chunks with
  | [] => selected_chunks
  | (d, score) :: rest =>
      let text :=
        chunk_text (Z.of_nat (List.length selected_chunks) + 1)
                   (filepath_of d) (content_of d) in
      let chunk_tokens := count_tokens self text in
      if current_tokens + chunk_tokens <=? available then
        select_loop self available rest (selected_chunks ++ [d])
                    (current_tokens + chunk_tokens)
      else if (Z.of_nat (List.length selected_chunks) =? 0) && (200 <? available) then
        if 50 <? max_content_tokens self available d
        then selected_chunks ++ [truncated_doc self available d]
        else selected_chunks
      else selected_chunks
  end.

Definition select_chunks_within_limit (self : t)
           (retrieved_chunks : list (doc * Q)) (query : string) : list doc :=
  select_loop self (available_tokens self query)
              (sorted snd retrieved_chunks) [] 0.

(** [context_text] of [create_prompt]: chunk [i] (from 1) in its
    in-prompt form. *)
Fixpoint context_text_from (i : Z) (context_chunks : list doc) : string :=
  match context_chunks with
  | [] => ""
  | chunk :: rest =>
      chunk_text i (filepath_of chunk) (content_of chunk)
        ++ context_text_from (i + 1) rest
  end.

Definition context_text (context_chunks : list doc) : string :=
  context_text_from 1 context_chunks.

Definition assemble_prompt (query : string) (context_chunks : list doc) : string :=
  template_head ++ context_text context_chunks ++ Py.nl
    ++ template_question ++ query ++ template_tail.

Definition create_prompt (self : t) (query : string) (context_chunks : list doc)
  : result string :=
  let prompt := assemble_prompt query context_chunks in
  let prompt_tokens := count_tokens self prompt in
  if max_context_tokens self <? prompt_tokens
  then Raise (ValueError ("Prompt exceeds token limit: " ++ Py.str prompt_tokens
                            ++ " > " ++ Py.str (max_context_tokens self)))
  else Ok prompt.

(** [generate_answer]: everything sits in one [try]; any exception, from
    [create_prompt] or from the service, becomes the returned text. *)
Definition generate_answer (self : t) (query : string) (context_chunks : list doc)
  : string :=
  match create_prompt self query context_chunks with
  | Ok prompt =>
      match client self prompt with
      | Ok answer => answer
      | Raise e => "Error generating answer: " ++ exn_str e
      end
  | Raise e => "Error generating answer: " ++ exn_str e
  end.

Record source := { src_filepath : string; src_score : Q; src_preview : string }.

Record bundle := {
  answer : string;
  sources : list source;
  chunks_used : Z;
  chunks_retrieved : Z
}.

Definition selected_filepaths (context_chunks : list doc) : gset string :=
  list_to_set (map filepath_of context_chunks).

Definition make_source (entry : doc * Q) : source :=
  {| src_filepath := filepath_of (fst entry);
     src_score := snd entry;
     src_preview := Py.slice_to (content_of (fst entry)) 200 ++ "..." |}.

Fixpoint collect_sources (paths : gset string) (retrieved_chunks : list (doc * Q))
  : list source :=
  match retrieved_chunks with
  | [] => []
  | entry :: rest =>
      if bool_decide (filepath_of (fst entry) ∈ paths)
      then make_source entry :: collect_sources paths rest
      else collect_sources paths rest
  end.

Definition answer_question (self : t) (query : string)
           (retrieved_chunks : list (doc * Q)) : bundle :=
  let context_chunks := select_chunks_within_limit self retrieved_chunks query in
  {| answer := generate_answer self query context_chunks;
     sources := collect_sources (selected_filepaths context_chunks) retrieved_chunks;
     chunks_used := Z.of_nat (List.length context_chunks);
     chunks_retrieved := Z.of_nat (List.length retrieved_chunks) |}.

(** The rendered token cost of a selection: chunk [i] costs what its
    in-prompt form at position [i] counts. *)
Fixpoint rendered_cost_from (self : t) (i : Z) (chunks : list doc) : Z :=
  match chunks with
  | [] => 0
  | chunk :: rest =>
      count_tokens self (chunk_text i (filepath_of chunk) (content_of chunk))
        + rendered_cost_from self (i + 1) rest
  end.

Definition rendered_cost (self : t) (chunks : list doc) : Z :=
  rendered_cost_from self 1 chunks.

(** What the loop returns when it stops at a candidate [d] that does not
    fit, having accepted [acc]: the [else] branch of its body. *)
Definition stop_result (self : t) (available : Z) (acc : list doc) (d : doc)
  : list doc :=
  if (Z.of_nat (List.length acc) =? 0) && (200 <? available) then
    if 50 <? max_content_tokens self available d
    then acc ++ [truncated_doc self available d]
    else acc
  else acc.

(** Whether the lowest-distance candidate fits whole (true when there is
    no candidate): the first test of the loop. *)
Definition first_fits (self : t) (retrieved_chunks : list (doc * Q))
           (query : string) : bool :=
  match sorted snd retrieved_chunks with
  | [] => true
  | (d, _) :: _ =>
      count_tokens self (chunk_text 1 (filepath_of d) (content_of d))
        <=? available_tokens self query
  end.

(** Orders on candidates by their sort key. *)
Definition key_le {A : Type} (key : A -> Q) (a b : A) : Prop := (key a <= key b)%Q.
Definition key_lt {A : Type} (key : A -> Q) (a b : A) : Prop := (key a < key b)%Q.

(** Test engines: no tokenizer (the [len // 4] fallback), and a
    tokenizer that yields one token per character. *)
Definition no_client : string -> result string := fun _ => Ok "".

Definition fallback_engine (budget : Z) : t :=
  {| max_context_tokens := budget; tokenizer := fun _ => None; client := no_client |}.

Definition char_tokens (s : string) : list Z :=
  map (fun a => Z.of_nat (Ascii.nat_of_ascii a)) (String.list_ascii_of_string s).

Definition char_engine (budget : Z) : t :=
  {| max_context_tokens := budget; tokenizer := fun s => Some (char_tokens s);
     client := no_client |}.

Definition mk_doc (filepath content : string) : doc :=
  <["filepath" := filepath]> (<["content" := content]> ∅).

End RAGEngine.

(** ** The budgeter over a store of dictionaries

    Python passes the chunk dictionaries by reference. To speak about
    mutation and aliasing, the same method is written here over a store
    that maps references to dictionaries: the candidates are references,
    and so is every element of the returned list. *)

Module RAGEngineRefs.
Import RAGEngine.

Abbreviation loc := positive.
Abbreviation store := (gmap positive (gmap string string)).

(** A computation that reads and writes the store; [None] is a
    reference to no object, which no Python program can hold. *)
Definition M (A : Type) : Type := store -> option (A * store).

Definition ret {A : Type} (a : A) : M A := fun σ => Some (a, σ).

Definition bind {A B : Type} (m : M A) (f : A -> M B) : M B :=
  fun σ => match m σ with
           | Some (a, σ') => f a σ'
           | None => None
           end.

Notation "'do' x <~ m ; k" := (bind m (fun x => k))
  (at level 10, x name, m at level 100, k at level 200).

(** [d.get(k, default)] on the object behind [l]. *)
Definition dict_get (l : loc) (k default : string) : M string :=
  fun σ => match σ !! l with
           | Some d => Some (Py.default_get d k default, σ)
           | None => None
           end.

(** [d.copy()]: a new object with the same items. *)
Definition dict_copy (l : loc) : M loc :=
  fun σ => match σ !! l with
           | Some d => let l' := fresh (dom σ) in Some (l', <[l' := d]> σ)
           | None => None
           end.

(** [d[k] = v]. *)
Definition dict_set (l : loc) (k v : string) : M unit :=
  fun σ => match σ !! l with
           | Some d => Some (tt, <[l := <[k := v]> d]> σ)
           | None => None
           end.

Fixpoint select_loop (self : t) (available : Z) (sorted_chunks : list (loc * Q))
         (selected_chunks : list loc) (current_tokens : Z) : M (list loc) :=
  match sorted_chunks with
  | [] => ret selected_chunks
  | (d, score) :: rest =>
      do filepath <~ dict_get d "filepath" "unknown" ;
      do content <~ dict_get d "content" "" ;
      let text :=
        chunk_text (Z.of_nat (List.length selected_chunks) + 1) filepath content in
      let chunk_tokens := count_tokens self text in
      if current_tokens + chunk_tokens <=? available then
        select_loop self available rest (selected_chunks ++ [d])
                    (current_tokens + chunk_tokens)
      else if (Z.of_nat (List.length selected_chunks) =? 0) && (200 <? available) then
        let header_tokens := count_tokens self (header_text filepath) in
        let max_content_tokens := available - header_tokens in
        if 50 <? max_content_tokens then
          let max_chars := max_content_tokens * 3 in
          do truncated <~ dict_copy d ;
          do done <~ dict_set truncated "content" (truncated_content max_chars content) ;
          ret (selected_chunks ++ [truncated])%list
        else ret selected_chunks
      else ret selected_chunks
  end.

Definition select_chunks_within_limit (self : t)
           (retrieved_chunks : list (loc * Q)) (query : string) : M (list loc) :=
  select_loop self (available_tokens self query)
              (sorted snd retrieved_chunks) [] 0.

(** The dictionaries behind a list of references. *)
Definition deref (σ : store) (l : loc) : gmap string string := default ∅ (σ !! l).

Definition deref_scored (σ : store) (e : loc * Q) : gmap string string * Q :=
  (deref σ (fst e), snd e).

End RAGEngineRefs.

(** ** Similarity Index and Retrieval Orchestrator ([vector_store.py]) *)

Module VectorStore.

Abbreviation doc := (gmap string string).
Abbreviation vec := (list Q).

(** The Embedding Provider, whichever strategy the constructor chose:
    [encode_corpus] is the encoding of the chunk texts in [build_index]
    and [encode_query] the encoding of one query in [search]. *)
Record provider := {
  encode_corpus : list string -> list vec;
  encode_query : string -> vec
}.

(** [self.index] is [None] until [build_index] or [load] sets it to a
    flat index, which is the list of the vectors added to it. *)
Record t := {
  model : provider;
  index : option (list vec);
  documents : list doc
}.

Definition init (p : provider) : t :=
  {| model := p; index := None; documents := [] |}.

Definition ntotal (vectors : list vec) : Z := Z.of_nat (List.length vectors).

(** Squared Euclidean distance, the metric of [IndexFlatL2]. *)
Fixpoint l2_sqr (x y : vec) : Q :=
  match x, y with
  | a :: x', b :: y' => ((a - b) * (a - b) + l2_sqr x' y')%Q
  | _, _ => 0%Q
  end.

Fixpoint scan_from (i : Z) (q : vec) (vectors : list vec) : list (Z * Q) :=
  match vectors with
  | [] => []
  | v :: rest => (i, l2_sqr q v) :: scan_from (i + 1) q rest
  end.

(** [IndexFlatL2.search] for one query row: the library refuses [k <= 0];
    otherwise a brute-force scan, the [k] nearest positions by ascending
    distance. ([search] below never asks for more than [ntotal].) *)
Definition flat_search (vectors : list vec) (q : vec) (k : Z)
  : result (list (Z * Q)) :=
  if k <=? 0 then Raise (AssertionError "k > 0")
  else Ok (firstn (Z.to_nat k) (RAGEngine.sorted snd (scan_from 0 q vectors))).

(** [chunk['content']]. *)
Fixpoint contents (chunks : list doc) : result (list string) :=
  match chunks with
  | [] => Ok []
  | c :: rest =>
      match c !! "content" with
      | None => Raise (Exception "KeyError: 'content'")
      | Some text =>
          match contents rest with
          | Ok texts => Ok (text :: texts)
          | Raise e => Raise e
          end
      end
  end.

Definition build_index (self : t) (chunks : list doc) : result t :=
  match contents chunks with
  | Raise e => Raise e
  | Ok texts =>
      Ok {| model := model self;
            index := Some (encode_corpus (model self) texts);
            documents := chunks |}
  end.

(** [documents[idx]] with Python's indexing. *)
Definition item (docs : list doc) (idx : Z) : option doc :=
  let n := Z.of_nat (List.length docs) in
  if idx <? 0
  then (if idx + n <? 0 then None else nth_error docs (Z.to_nat (idx + n)))
  else nth_error docs (Z.to_nat idx).

(** The loop over [zip(indices[0], distances[0])]. *)
Fixpoint collect (docs : list doc) (hits : list (Z * Q)) (results : list (doc * Q))
  : result (list (doc * Q)) :=
  match hits with
  | [] => Ok results
  | (idx, distance) :: rest =>
      if idx <? Z.of_nat (List.length docs) then
        match item docs idx with
        | Some d => collect docs rest (results ++ [(d, distance)])
        | None => Raise (Exception "IndexError")
        end
      else collect docs rest results
  end.

Definition search (self : t) (query : string) (k : Z) : result (list (doc * Q)) :=
  match index self with
  | None => Ok []
  | Some vectors =>
      if ntotal vectors =? 0 then Ok []
      else
        let query_embedding := encode_query (model self) query in
        let k' := Z.min k (ntotal vectors) in
        match flat_search vectors query_embedding k' with
        | Raise e => Raise e
        | Ok hits => collect (documents self) hits []
        end
  end.

(** A provider for examples: a text is embedded as its length. *)
Definition length_provider : provider :=
  {| encode_corpus := map (fun s => [inject_Z (Py.len s)]);
     encode_query := fun s => [inject_Z (Py.len s)] |}.

(** A file on disk: what [faiss.write_index] wrote, or what [pickle.dump]
    wrote of a document list. [faiss.read_index] raises on anything but
    the first and [pickle.load] on anything but the second; a missing file
    raises too. *)
Inductive blob : Type :=
| IndexFile (vectors : list vec)
| PickleFile (docs : list doc).

(** [save]: nothing is written while there is no index; otherwise the
    index file is written first and the documents file second. *)
Definition save (self : t) (index_path docs_path : string) (fs : gmap string blob)
  : gmap string blob :=
  match index self with
  | None => fs
  | Some vectors =>
      <[docs_path := PickleFile (documents self)]>
        (<[index_path := IndexFile vectors]> fs)
  end.

(** [load]: the two assignments happen in order inside one [try], so an
    exception on the second file comes after [self.index] was replaced.
    The result is the store afterwards and the returned flag. *)
Definition load (self : t) (index_path docs_path : string) (fs : gmap string blob)
  : t * bool :=
  match fs !! index_path with
  | Some (IndexFile vectors) =>
      match fs !! docs_path with
      | Some (PickleFile docs) =>
          ({| model := model self; index := Some vectors; documents := docs |}, true)
      | _ =>
          ({| model := model self; index := Some vectors; documents := documents self |},
           false)
      end
  | _ => (self, false)
  end.

End VectorStore.

(** ** Repository loader ([repo_loader.py])

    The file system is outside the model. A path is the list of its parts
    ([Path.parts]); the walk [repo_path.rglob('*')] is given as the list of
    what it yields, each entry with its parts below the repository, whether
    it is a directory, and what reading it as text returns ([None] when
    opening or reading raises). [str(rel_path)] joins the parts with "/",
    the separator of a POSIX platform. *)

Module RepoLoader.

Definition code_extensions : gset string :=
  list_to_set
    [".py"; ".js"; ".jsx"; ".ts"; ".tsx"; ".java"; ".cpp"; ".c"; ".h";
     ".cs"; ".go"; ".rs"; ".php"; ".rb"; ".swift"; ".kt"; ".scala";
     ".r"; ".m"; ".sh"; ".bash"; ".sql"; ".html"; ".css"; ".vue";
     ".json"; ".yaml"; ".yml"; ".xml"; ".md"; ".txt"].

Definition skip_dirs : list string :=
  [".git"; "node_modules"; "__pycache__"; "venv"; "env"; "dist"; "build"].

(** [repo_url.rstrip('/').split('/')[-1].replace('.git', '')], the name
    [clone_repo] gives the clone (the front end computes the same). *)
Definition repo_name (repo_url : string) : string :=
  Py.replace (Py.last_item (Py.split (Py.rstrip_char repo_url "/"%char) "/"%char))
             ".git" "".

(** [Path.name]: the last part. *)
Definition name (parts : list string) : string := List.last parts "".

(** [Path.suffix]: the name from its last dot on, unless that dot is the
    first or the last character of the name. *)
Definition suffix (parts : list string) : string :=
  let n := name parts in
  let i := Py.rfind n "."%char in
  if (0 <? i) && (i <? Py.len n - 1) then Py.slice n i (Py.len n) else "".

Record entry := {
  rel : list string;
  is_dir : bool;
  read : option string
}.

(** [any(skip in file_path.parts for skip in [...])]. *)
Definition in_skipped_dir (parts : list string) : bool :=
  existsb (fun skip => existsb (String.eqb skip) parts) skip_dirs.

Definition make_document (repo_path : list string) (e : entry) (content : string)
  : gmap string string :=
  <["content" := content]>
    (<["filepath" := Py.join "/" (rel e)]>
       (<["filename" := name (repo_path ++ rel e)]>
          (<["extension" := suffix (repo_path ++ rel e)]> ∅))).

(** One round of the loop of [parse_files]: the document appended, if
    any. A read that raises is caught and the file skipped. *)
Definition parse_entry (repo_path : list string) (e : entry)
  : option (gmap string string) :=
  let file_path := (repo_path ++ rel e)%list in
  if is_dir e || Py.startswith (name file_path) "." then None
  else if in_skipped_dir file_path then None
  else if negb (bool_decide (Py.lower (suffix file_path) ∈ code_extensions)) then None
  else match read e with
       | None => None
       | Some content =>
           if String.eqb (Py.strip content) "" || (500000 <? Py.len content)
           then None
           else Some (make_document repo_path e content)
       end.

Fixpoint parse_files (repo_path : list string) (entries : list entry)
  : list (gmap string string) :=
  match entries with
  | [] => []
  | e :: rest =>
      match parse_entry repo_path e with
      | Some d => d :: parse_files repo_path rest
      | None => parse_files repo_path rest
      end
  end.

End RepoLoader.

(** ** Predicates of the specification and test data *)

Module Spec.

(** The precondition the specification puts on a Segmenter. *)
Definition valid_config (c : CodeChunker.t) : Prop :=
  0 <= CodeChunker.chunk_overlap c < CodeChunker.chunk_size c.

Definition text_7000 : string := Py.replicate_char (Z.to_nat 7000) "a"%char.

(** A chunk of file [name] whose content is [n] letters. *)
Definition doc_of_size (name : string) (n : Z) : gmap string string :=
  RAGEngine.mk_doc name (Py.replicate_char (Z.to_nat n) "x"%char).

Definition five_candidates : list (gmap string string * Q) :=
  [(doc_of_size "a.py" 365, 1 # 10); (doc_of_size "b.py" 365, 2 # 10);
   (doc_of_size "c.py" 365, 3 # 10); (doc_of_size "d.py" 365, 4 # 10);
   (doc_of_size "e.py" 365, 5 # 10)]%Q.

(** The same five candidates as the index might return them, out of
    order. *)
Definition five_shuffled : list (gmap string string * Q) :=
  [(doc_of_size "d.py" 365, 4 # 10); (doc_of_size "b.py" 365, 2 # 10);
   (doc_of_size "e.py" 365, 5 # 10); (doc_of_size "a.py" 365, 1 # 10);
   (doc_of_size "c.py" 365, 3 # 10)]%Q.

Definition long_candidate : list (gmap string string * Q) :=
  [(doc_of_size "a.py" 4000, 1 # 10)]%Q.

Definition three_chunks : list (gmap string string) :=
  [RAGEngine.mk_doc "a.py" "aaaa"; RAGEngine.mk_doc "b.py" "b";
   RAGEngine.mk_doc "c.py" "ccc"].

(** The store [build_index] makes of them with the length provider. *)
Definition built_store : VectorStore.t :=
  {| VectorStore.model := VectorStore.length_provider;
     VectorStore.index := Some [[4 # 1]; [1 # 1]; [3 # 1]]%Q;
     VectorStore.documents := three_chunks |}.

(** A small chunk, a long one and another small one, in order of
    distance. *)
Definition small_long_small : list (gmap string string * Q) :=
  [(doc_of_size "a.py" 365, 1 # 10); (doc_of_size "b.py" 4000, 2 # 10);
   (doc_of_size "c.py" 365, 3 # 10)]%Q.

(** A query of 40000 characters. *)
Definition long_query : string := Py.replicate_char (Z.to_nat 40000) "q"%char.

(** A store with one dictionary, the long chunk, behind reference 1. *)
Definition one_object_store : gmap positive (gmap string string) :=
  <[1%positive := doc_of_size "a.py" 4000]> ∅.

Definition one_reference : list (positive * Q) := [(1%positive, 1 # 10)]%Q.

(** Two chunks of one file. *)
Definition two_of_one_file : list (gmap string string * Q) :=
  [(RAGEngine.mk_doc "a.py" "def f(): pass", 1 # 10);
   (RAGEngine.mk_doc "a.py" "def g(): pass", 2 # 10)]%Q.

(** An engine whose service call fails with the given message, and one
    whose service answers with the given text. *)
Definition failing_service (budget : Z) (msg : string) : RAGEngine.t :=
  {| RAGEngine.max_context_tokens := budget;
     RAGEngine.tokenizer := fun _ => None;
     RAGEngine.client := fun _ => Raise (Exception msg) |}.

Definition answering_service (budget : Z) (text : string) : RAGEngine.t :=
  {| RAGEngine.max_context_tokens := budget;
     RAGEngine.tokenizer := fun _ => None;
     RAGEngine.client := fun _ => Ok text |}.

(** Consecutive windows [(a, b)] over a text of [n] characters, from the
    start offset [s] on: every window starts where the loop stands, inside
    the text, is not empty and spans at most [size]; the next one starts
    [overlap] before the end of this one; after the last window the start
    offset has left the text. *)
Fixpoint window_chain (size overlap n s : Z) (bounds : list (Z * Z)) : Prop :=
  match bounds with
  | [] => n <= s
  | (a, b) :: rest =>
      a = s /\ 0 <= a < n /\ a < b <= a + size
      /\ window_chain size overlap n (b - overlap) rest
  end.

(** The text between two offsets. *)
Definition window (text : string) (b : Z * Z) : string := Py.slice text (fst b) (snd b).

(** The [i]-th window of fixed width [size] at stride [size - overlap]. *)
Definition stride_window (text : string) (size overlap : Z) (i : nat) : string :=
  Py.slice text (Z.of_nat i * (size - overlap)) (Z.of_nat i * (size - overlap) + size).

(** Ten letters, a newline at index 6, then more letters. *)
Definition text_newline_at_6 : string := "abcdef
ghijklmnopqrstuvwxyz".

(** Files left by an earlier [save] of the built store. *)
Definition saved_files : gmap string VectorStore.blob :=
  VectorStore.save built_store "faiss_index.bin" "documents.pkl" ∅.

(** Only the index file is there. *)
Definition index_file_only : gmap string VectorStore.blob :=
  <["faiss_index.bin" := VectorStore.IndexFile [[7 # 1]]%Q]> ∅.

(** A small repository: a directory, a source file in it, a hidden file,
    an image, a file that cannot be read, a blank file and a readme. *)
Definition tree : list RepoLoader.entry :=
  [{| RepoLoader.rel := ["src"]; RepoLoader.is_dir := true; RepoLoader.read := None |};
   {| RepoLoader.rel := ["src"; "Main.PY"]; RepoLoader.is_dir := false;
      RepoLoader.read := Some "print(1)" |};
   {| RepoLoader.rel := [".env"]; RepoLoader.is_dir := false;
      RepoLoader.read := Some "KEY=1" |};
   {| RepoLoader.rel := ["logo.png"]; RepoLoader.is_dir := false;
      RepoLoader.read := Some "png" |};
   {| RepoLoader.rel := ["locked.py"]; RepoLoader.is_dir := false;
      RepoLoader.read := None |};
   {| RepoLoader.rel := ["blank.txt"]; RepoLoader.is_dir := false;
      RepoLoader.read := Some "  
" |};
   {| RepoLoader.rel := ["README.md"]; RepoLoader.is_dir := false;
      RepoLoader.read := Some "# demo" |}].

(** A document as the loader produces it. *)
Definition document (path name ext text : string) : gmap string string :=
  <["content" := text]>
    (<["filepath" := path]> (<["filename" := name]> (<["extension" := ext]> ∅))).

Definition two_documents : list (gmap string string) :=
  [document "src/a.py" "a.py" ".py" "abcdefghij"; document "b.md" "b.md" ".md" "xyz"].

(** A dictionary with a content and nothing else. *)
Definition content_only (text : string) : gmap string string := <["content" := text]> ∅.

(** What [chunk_documents] makes of a document that fits in one chunk. *)
Definition single_chunk (d : gmap string string) : CodeChunkerDocs.chunk :=
  {| CodeChunkerDocs.content := Py.default_get d "content" "";
     CodeChunkerDocs.filepath := Py.default_get d "filepath" "";
     CodeChunkerDocs.filename := Py.default_get d "filename" "";
     CodeChunkerDocs.chunk_id := 0;
     CodeChunkerDocs.total_chunks := 1 |}.

End Spec.

(** * Properties *)

(** ** The primitives on small inputs *)

Example str_examples : Py.str 0 = "0" /\ Py.str 12 = "12" /\ Py.str (-3) = "-3".
Proof. repeat split; reflexivity. Qed.

Example slice_examples :
  Py.slice "abcdef" 1 3 = "bc" /\ Py.slice "abcdef" (-2) 10 = "ef" /\
  Py.slice "abcdef" 4 2 = "" /\ Py.slice_to "abcdef" (-1) = "abcde" /\
  Py.rfind "a
b
c" Py.newline = 3 /\ Py.rfind "abc" Py.newline = -1.
Proof. repeat split; reflexivity. Qed.

Example chunk_small :
  CodeChunker.chunk_text 10 (CodeChunker.init 4 1) "abcdefghij"
  = Some ["abcd"; "defg"; "ghij"; "j"].
Proof. reflexivity. Qed.

Example base_prompt_len : Py.len (RAGEngine.base_prompt "") = 506.
Proof. reflexivity. Qed.

Example search_example :
  match VectorStore.build_index (VectorStore.init VectorStore.length_provider)
          [RAGEngine.mk_doc "a.py" "aaaa"; RAGEngine.mk_doc "b.py" "b";
           RAGEngine.mk_doc "c.py" "ccc"] with
  | Ok vs => VectorStore.search vs "qq" 2
  | Raise e => Raise e
  end = Ok [(RAGEngine.mk_doc "b.py" "b", 1%Q); (RAGEngine.mk_doc "c.py" "ccc", 1%Q)].
Proof. vm_compute. reflexivity. Qed.


(** ** Strings and slices *)

Section StringFacts.

Lemma length_append (s1 s2 : string) :
  String.length (s1 ++ s2) = (String.length s1 + String.length s2)%nat.
Proof. induction s1 as [|a s1 IH]; simpl; [reflexivity | now rewrite IH]. Qed.

Lemma len_append (s1 s2 : string) : Py.len (s1 ++ s2) = Py.len s1 + Py.len s2.
Proof. unfold Py.len. rewrite length_append. lia. Qed.

Lemma len_nonneg (s : string) : 0 <= Py.len s.
Proof. unfold Py.len. lia. Qed.

Lemma length_substring_le (n m : nat) (s : string) :
  (String.length (String.substring n m s) <= m)%nat.
Proof.
  revert n m. induction s as [|a s IH]; intros [|n] [|m]; simpl; try lia.
  - specialize (IH 0%nat m). lia.
  - apply (IH n 0%nat).
  - apply (IH n (S m)).
Qed.

Lemma length_substring (n m : nat) (s : string) :
  (n + m <= String.length s)%nat ->
  String.length (String.substring n m s) = m.
Proof.
  revert n m. induction s as [|a s IH]; intros [|n] [|m]; simpl; intros H;
    try lia; try reflexivity.
  - f_equal. apply (IH 0%nat m). lia.
  - apply (IH n 0%nat). lia.
  - apply (IH n (S m)). lia.
Qed.

Lemma free_of_substring (c : ascii) (n m : nat) (s : string) :
  Py.free_of c s = true -> Py.free_of c (String.substring n m s) = true.
Proof.
  revert n m. induction s as [|a s IH]; intros [|n] [|m]; simpl; intros H;
    try reflexivity; try assumption.
  - apply andb_true_iff in H as [Ha Hs]. rewrite Ha. simpl. now apply IH.
  - apply andb_true_iff in H as [Ha Hs]. now apply IH.
  - apply andb_true_iff in H as [Ha Hs]. now apply IH.
Qed.

Lemma rfind_from_free (c : ascii) (s : string) (i last : Z) :
  Py.free_of c s = true -> Py.rfind_from s c i last = last.
Proof.
  revert i last. induction s as [|a s IH]; simpl; intros i last H;
    [reflexivity|].
  apply andb_true_iff in H as [Ha Hs].
  apply negb_true_iff in Ha. rewrite Ha. now apply IH.
Qed.

Lemma rfind_slice_free (c : ascii) (s : string) (lo hi : Z) :
  Py.free_of c s = true -> Py.rfind (Py.slice s lo hi) c = -1.
Proof.
  intros H. unfold Py.rfind, Py.slice.
  apply rfind_from_free. now apply free_of_substring.
Qed.

Lemma rfind_from_bound (c : ascii) (s : string) (i last : Z) :
  last < i -> Py.rfind_from s c i last < i + Py.len s.
Proof.
  revert i last. induction s as [|a s IH]; simpl; intros i last H.
  - unfold Py.len. simpl. lia.
  - replace (i + Py.len (String a s)) with ((i + 1) + Py.len s)
      by (unfold Py.len; simpl String.length; lia).
    apply IH. destruct (Ascii.eqb a c); lia.
Qed.

Lemma rfind_lt_len (c : ascii) (s : string) : Py.rfind s c < Py.len s.
Proof. unfold Py.rfind. apply (rfind_from_bound c s 0 (-1)). lia. Qed.

Lemma len_slice_window (s : string) (lo size : Z) :
  0 < size -> size < Py.len s -> Py.len (Py.slice s lo (lo + size)) <= size.
Proof.
  intros Hs Hn. unfold Py.slice.
  set (a := Py.norm (Py.len s) lo). set (b := Py.norm (Py.len s) (lo + size)).
  assert (Hba : b - a <= size).
  { subst a b. unfold Py.norm.
    destruct (lo <? 0) eqn:E1; destruct (lo + size <? 0) eqn:E2; lia. }
  unfold Py.len at 1.
  pose proof (length_substring_le (Z.to_nat a) (Z.to_nat (b - a)) s). lia.
Qed.

Lemma len_slice_to (s : string) (hi : Z) :
  0 <= hi <= Py.len s -> Py.len (Py.slice_to s hi) = hi.
Proof.
  intros H. unfold Py.slice_to, Py.slice, Py.norm.
  replace (0 <? 0) with false by reflexivity.
  destruct (hi <? 0) eqn:E; [lia|].
  pose proof (len_nonneg s).
  rewrite (Z.min_l 0) by lia. rewrite (Z.min_l hi) by lia.
  unfold Py.len. rewrite length_substring; unfold Py.len in *; lia.
Qed.

Lemma len_slice (s : string) (lo hi : Z) :
  0 <= lo <= hi -> hi <= Py.len s -> Py.len (Py.slice s lo hi) = hi - lo.
Proof.
  intros H1 H2. unfold Py.slice, Py.norm.
  destruct (lo <? 0) eqn:E1; [lia|]. destruct (hi <? 0) eqn:E2; [lia|].
  rewrite (Z.min_l lo) by lia. rewrite (Z.min_l hi) by lia.
  unfold Py.len. rewrite length_substring; unfold Py.len in *; lia.
Qed.

End StringFacts.

(** ** Segmenter *)

Section Chunker.
Import CodeChunker.

Lemma chunk_loop_exit fuel self text start chunks :
  Py.len text <= start ->
  chunk_loop (S fuel) self text start chunks = Some chunks.
Proof. intros H. simpl. destruct (start <? Py.len text) eqn:E; [lia | reflexivity]. Qed.

(** One round of the loop on a text without newline: the window is taken
    whole. *)
Lemma chunk_loop_plain fuel self text start chunks :
  Py.free_of Py.newline text = true ->
  0 <= chunk_size self ->
  start < Py.len text ->
  chunk_loop (S fuel) self text start chunks
  = chunk_loop fuel self text (start + chunk_size self - chunk_overlap self)
               (chunks ++ [Py.slice text start (start + chunk_size self)]).
Proof.
  intros Hfree Hsize Hlt. simpl.
  destruct (start <? Py.len text) eqn:E; [|lia].
  rewrite rfind_slice_free by assumption.
  assert (Hq : (chunk_size self / 2 <? -1) = false).
  { apply Z.ltb_ge. pose proof (Z.div_pos (chunk_size self) 2). lia. }
  rewrite Hq.
  destruct (start + chunk_size self <? Py.len text); reflexivity.
Qed.

(** With [overlap >= size > 0] the start offset never moves forward, so
    the loop condition stays true for ever. *)
Lemma chunk_loop_no_progress self text :
  0 < chunk_size self <= chunk_overlap self ->
  chunk_size self < Py.len text ->
  forall fuel start chunks,
    start < Py.len text -> chunk_loop fuel self text start chunks = None.
Proof.
  intros Hcfg Hlong. induction fuel as [|fuel IH]; intros start chunks Hlt;
    [reflexivity|].
  simpl. destruct (start <? Py.len text) eqn:E; [|lia].
  pose proof (len_slice_window text start (chunk_size self)
                ltac:(lia) ltac:(lia)) as Hwin.
  pose proof (rfind_lt_len Py.newline
                (Py.slice text start (start + chunk_size self))) as Hrf.
  destruct (start + chunk_size self <? Py.len text);
    [destruct (chunk_size self / 2 <? _)|]; apply IH; lia.
Qed.

End Chunker.

Section ChunkerClaims.
Import CodeChunker.

(** C6, as the code has it. For every 7000-character text without a
    newline, [chunk_text] with size 3000 and overlap 200 returns (given
    fuel for its four loop tests) three chunks: the windows that start at
    offsets 0, 2800 and 5600. The first two are 3000 characters long and
    the last one is 1400 long, so it ends at offset 7000. There is no
    fourth chunk. *)
Theorem chunk_text_7000 (text : string) (fuel : nat) :
  Py.len text = 7000 ->
  Py.free_of Py.newline text = true ->
  (4 <= fuel)%nat ->
  chunk_text fuel (init 3000 200) text
  = Some [Py.slice text 0 3000; Py.slice text 2800 5800; Py.slice text 5600 7000]
  /\ Py.len (Py.slice text 0 3000) = 3000
  /\ Py.len (Py.slice text 2800 5800) = 3000
  /\ Py.len (Py.slice text 5600 7000) = 1400.
Proof.
  intros Hn Hfree Hfuel.
  split; [|repeat split; rewrite len_slice; lia].
  destruct fuel as [|[|[|[|fuel]]]]; try lia.
  unfold chunk_text. cbn [chunk_size chunk_overlap init]. rewrite Hn.
  replace (7000 <=? 3000) with false by reflexivity.
  rewrite chunk_loop_plain by (cbn [chunk_size chunk_overlap init]; lia || assumption).
  rewrite chunk_loop_plain by (cbn [chunk_size chunk_overlap init]; lia || assumption).
  rewrite chunk_loop_plain by (cbn [chunk_size chunk_overlap init]; lia || assumption).
  rewrite chunk_loop_exit by (cbn [chunk_size chunk_overlap init]; lia).
  cbn [chunk_size chunk_overlap init app].
  unfold Py.slice, Py.norm. rewrite Hn. reflexivity.
Qed.

Lemma chunk_text_7000_witness :
  chunk_text 4 (init 3000 200) Spec.text_7000
  = Some [Py.slice Spec.text_7000 0 3000; Py.slice Spec.text_7000 2800 5800;
          Py.slice Spec.text_7000 5600 7000]
  /\ Py.len (Py.slice Spec.text_7000 0 3000) = 3000
  /\ Py.len (Py.slice Spec.text_7000 2800 5800) = 3000
  /\ Py.len (Py.slice Spec.text_7000 5600 7000) = 1400.
Proof.
  apply (chunk_text_7000 Spec.text_7000 4).
  - vm_compute. reflexivity.
  - vm_compute. reflexivity.
  - lia.
Defined.

(** C6 as stated fails: on 7000 letters the code returns three chunks,
    not four. *)
Lemma chunk_text_7000_not_four :
  exists chunks,
    chunk_text 10 (init 3000 200) Spec.text_7000 = Some chunks
    /\ List.length chunks = 3%nat /\ List.length chunks <> 4%nat.
Proof.
  eexists. split; [vm_compute; reflexivity|]. split; [reflexivity | discriminate].
Qed.

(** C5, as the code has it. The constructor stores whatever size and
    overlap it is given and rejects nothing, at setup or at use. A text no
    longer than the size comes back as one chunk whatever the overlap.
    With [overlap >= size > 0] and a longer text the loop makes no
    progress: [chunk_text] returns with no amount of fuel. *)
Theorem init_accepts_any_config (size overlap : Z) :
  chunk_size (init size overlap) = size
  /\ chunk_overlap (init size overlap) = overlap
  /\ (forall text fuel,
         Py.len text <= size ->
         chunk_text fuel (init size overlap) text = Some [text])
  /\ (0 < size <= overlap ->
      forall text fuel,
        size < Py.len text ->
        chunk_text fuel (init size overlap) text = None).
Proof.
  repeat split.
  - intros text fuel H. unfold chunk_text. cbn [chunk_size init].
    destruct (Py.len text <=? size) eqn:E; [reflexivity | lia].
  - intros Hcfg text fuel Hlong. unfold chunk_text. cbn [chunk_size init].
    destruct (Py.len text <=? size) eqn:E; [lia|].
    apply chunk_loop_no_progress; cbn [chunk_size chunk_overlap init]; lia.
Qed.

Lemma init_accepts_any_config_witness :
  chunk_text 50 (init 3 5) "ab" = Some ["ab"]
  /\ chunk_text 50 (init 3 5) "abcdef" = None.
Proof.
  destruct (init_accepts_any_config 3 5) as (_ & _ & Hshort & Hloop).
  split.
  - apply Hshort. vm_compute. discriminate.
  - apply Hloop; [lia | vm_compute; reflexivity].
Defined.

(** C5 as stated fails: a Segmenter with overlap 5 and size 3 is
    constructed, outside the precondition, and it chunks. *)
Lemma init_overlap_ge_size_not_rejected :
  ~ Spec.valid_config (init 3 5)
  /\ chunk_text 1 (init 3 5) "ab" = Some ["ab"].
Proof.
  split; [|reflexivity].
  unfold Spec.valid_config. cbn [chunk_size chunk_overlap init]. lia.
Qed.

End ChunkerClaims.

(** ** Sorting by distance *)

Section Sorting.
Import RAGEngine.
Context {A : Type} (key : A -> Q).

Lemma insert_by_perm (x : A) (l : list A) : Permutation (insert_by key x l) (x :: l).
Proof.
  induction l as [|y l IH]; simpl; [reflexivity|].
  destruct (Qle_bool (key x) (key y)); [reflexivity|].
  rewrite IH. apply perm_swap.
Qed.

Lemma sorted_perm (l : list A) : Permutation (sorted key l) l.
Proof.
  induction l as [|x l IH]; simpl; [reflexivity|].
  rewrite insert_by_perm. now constructor.
Qed.

Lemma sorted_length (l : list A) : List.length (sorted key l) = List.length l.
Proof. apply Permutation_length, sorted_perm. Qed.

Lemma insert_by_Sorted (x : A) (l : list A) :
  Sorted (key_le key) l -> Sorted (key_le key) (insert_by key x l).
Proof.
  induction l as [|y l IH]; simpl; intros Hs.
  - repeat constructor.
  - destruct (Qle_bool (key x) (key y)) eqn:E.
    + constructor; [assumption|]. constructor. now apply Qle_bool_iff.
    + assert (Hyx : key_le key y x).
      { unfold key_le. apply Qlt_le_weak, Qnot_le_lt. intros H.
        apply Qle_bool_iff in H. congruence. }
      inversion Hs as [|? ? Hl Hhd]; subst.
      constructor; [now apply IH|].
      destruct l as [|z l]; simpl.
      * now constructor.
      * destruct (Qle_bool (key x) (key z)); constructor; try assumption.
        now inversion Hhd.
  Qed.

Lemma key_le_trans : Relations_1.Transitive (key_le key).
Proof. intros a b c. unfold key_le. apply Qle_trans. Qed.

Lemma sorted_StronglySorted (l : list A) : StronglySorted (key_le key) (sorted key l).
Proof.
  apply Sorted_StronglySorted; [exact key_le_trans|].
  induction l as [|x l IH]; simpl; [constructor | now apply insert_by_Sorted].
Qed.

(** The first element of the sorted list has the least distance. *)
Lemma sorted_head_least (l : list A) (x : A) (rest : list A) :
  sorted key l = x :: rest -> forall y, In y l -> key_le key x y.
Proof.
  intros Hs y Hy.
  pose proof (sorted_StronglySorted l) as Hss. rewrite Hs in Hss.
  apply (Permutation_in _ (Permutation_sym (sorted_perm l))) in Hy.
  rewrite Hs in Hy. destruct Hy as [<-|Hy].
  - apply Qle_refl.
  - inversion Hss as [|? ? _ Hall]; subst.
    rewrite List.Forall_forall in Hall. now apply Hall.
Qed.

(** A list in ascending order of distance is left as it is: ties keep
    their input order. *)
Lemma sorted_of_ascending (l : list A) :
  StronglySorted (key_le key) l -> sorted key l = l.
Proof.
  induction 1 as [|x l Hl IH Hall]; simpl; [reflexivity|].
  rewrite IH. destruct l as [|y l]; simpl; [reflexivity|].
  inversion Hall as [|? ? Hxy _]; subst.
  apply Qle_bool_iff in Hxy. now rewrite Hxy.
Qed.

(** With pairwise different distances the order is fixed by the
    distances alone. *)
Lemma ascending_unique (l1 l2 : list A) :
  StronglySorted (key_le key) l1 -> StronglySorted (key_lt key) l2 ->
  Permutation l1 l2 -> l1 = l2.
Proof.
  intros H1 H2. revert l1 H1.
  induction H2 as [|x l2 Hl2 IH Hall2]; intros l1 H1 Hp.
  - now apply Permutation_sym, Permutation_nil in Hp.
  - destruct l1 as [|y l1]; [now apply Permutation_nil in Hp|].
    inversion H1 as [|? ? Hl1 Hall1]; subst.
    assert (y = x) as ->.
    { assert (Hy : In y (x :: l2)) by (eapply Permutation_in; [exact Hp | now left]).
      destruct Hy as [Hy|Hy]; [congruence|].
      assert (Hx : In x (y :: l1))
        by (eapply Permutation_in; [exact (Permutation_sym Hp) | now left]).
      destruct Hx as [Hx|Hx]; [congruence|].
      rewrite List.Forall_forall in Hall1, Hall2.
      specialize (Hall1 _ Hx). specialize (Hall2 _ Hy).
      unfold key_le, key_lt in *. exfalso.
      apply (Qlt_irrefl (key x)). eapply Qlt_le_trans; eassumption. }
    f_equal. apply IH; [assumption|]. eapply Permutation_cons_inv; exact Hp.
Qed.

Lemma sorted_map {B : Type} (f : B -> A) (l : list B) :
  sorted key (map f l) = map f (sorted (fun b => key (f b)) l).
Proof.
  induction l as [|x l IH]; simpl; [reflexivity|].
  rewrite IH. generalize (sorted (fun b => key (f b)) l) as s.
  induction s as [|y s IHs]; simpl; [reflexivity|].
  destruct (Qle_bool (key (f x)) (key (f y))); simpl; [reflexivity|].
  now rewrite IHs.
Qed.

End Sorting.

(** ** Context Budgeter *)

Section Budgeter.
Import RAGEngine.
Local Open Scope list_scope.
Variable self : t.

Lemma count_tokens_nonneg (text : string) : 0 <= count_tokens self text.
Proof.
  unfold count_tokens. destruct (tokenizer self text); [lia|].
  apply Z.div_pos; [apply len_nonneg | lia].
Qed.

Lemma count_tokens_fallback (text : string) :
  (forall s, tokenizer self s = None) -> count_tokens self text = Py.len text / 4.
Proof. intros H. unfold count_tokens. now rewrite H. Qed.

Lemma rendered_cost_from_nonneg (i : Z) (chunks : list doc) :
  0 <= rendered_cost_from self i chunks.
Proof.
  revert i. induction chunks as [|c chunks IH]; intros i; simpl; [lia|].
  pose proof (count_tokens_nonneg (chunk_text i (filepath_of c) (content_of c))).
  specialize (IH (i + 1)). lia.
Qed.

Lemma rendered_cost_from_app (i : Z) (l1 l2 : list doc) :
  rendered_cost_from self i (l1 ++ l2)
  = rendered_cost_from self i l1
    + rendered_cost_from self (i + Z.of_nat (List.length l1)) l2.
Proof.
  revert i. induction l1 as [|c l1 IH]; intros i; simpl List.length; simpl app.
  - replace (i + Z.of_nat 0) with i by lia. simpl. lia.
  - simpl rendered_cost_from. rewrite IH.
    replace (i + 1 + Z.of_nat (List.length l1))
      with (i + Z.of_nat (S (List.length l1))) by lia. lia.
Qed.

(** Accepting [d] after [selected] adds the cost of its in-prompt form
    at the position it will have. *)
Lemma rendered_cost_snoc (selected : list doc) (d : doc) :
  rendered_cost self (selected ++ [d])
  = rendered_cost self selected
    + count_tokens self (chunk_text (Z.of_nat (List.length selected) + 1)
                                    (filepath_of d) (content_of d)).
Proof.
  unfold rendered_cost. rewrite rendered_cost_from_app. simpl.
  replace (1 + Z.of_nat (List.length selected))
    with (Z.of_nat (List.length selected) + 1) by lia. lia.
Qed.

(** The loop accepts a prefix of the sorted candidates and stops at the
    first one that does not fit. *)
Lemma select_loop_greedy (available : Z) (cand : list (doc * Q)) :
  forall selected : list doc,
  exists n : nat,
    let acc := selected ++ map fst (firstn n cand) in
    (n = 0%nat \/ rendered_cost self acc <= available)
    /\ ((n = List.length cand
         /\ select_loop self available cand selected (rendered_cost self selected) = acc)
        \/ (exists d score,
               nth_error cand n = Some (d, score)
               /\ available < rendered_cost self (acc ++ [d])
               /\ select_loop self available cand selected (rendered_cost self selected)
                  = stop_result self available acc d)).
Proof.
  induction cand as [|[d score] rest IH]; intros selected.
  - exists 0%nat. simpl. rewrite app_nil_r. split; [now left|]. now left.
  - simpl select_loop. rewrite <- rendered_cost_snoc.
    destruct (rendered_cost self (selected ++ [d]) <=? available) eqn:E.
    + destruct (IH (selected ++ [d])) as (n & Hfit & Hres).
      exists (S n). simpl firstn. simpl map. simpl in Hfit, Hres.
      rewrite <- app_assoc in Hfit, Hres. simpl in Hfit, Hres.
      split.
      * right. destruct Hfit as [->|Hfit]; [|assumption].
        simpl. apply Z.leb_le in E. exact E.
      * destruct Hres as [[-> Hres]|(d' & s' & Hnth & Hover & Hres)].
        -- left. split; [reflexivity | exact Hres].
        -- right. exists d', s'. simpl nth_error. now repeat split.
    + exists 0%nat. simpl. rewrite app_nil_r. split; [now left|].
      right. exists d, score. split; [reflexivity|].
      split; [apply Z.leb_gt in E; exact E|]. reflexivity.
Qed.

Lemma select_loop_accept (available : Z) d score rest (selected : list doc) :
  rendered_cost self (selected ++ [d]) <= available ->
  select_loop self available ((d, score) :: rest) selected (rendered_cost self selected)
  = select_loop self available rest (selected ++ [d])
                (rendered_cost self (selected ++ [d])).
Proof.
  intros H. simpl select_loop. rewrite <- rendered_cost_snoc.
  apply Z.leb_le in H. now rewrite H.
Qed.

Lemma select_loop_stop (available : Z) d score rest (selected : list doc) :
  available < rendered_cost self (selected ++ [d]) ->
  select_loop self available ((d, score) :: rest) selected (rendered_cost self selected)
  = stop_result self available selected d.
Proof.
  intros H. simpl select_loop. rewrite <- rendered_cost_snoc.
  apply Z.leb_gt in H. now rewrite H.
Qed.

Lemma prefix_length {X Y : Type} (f : X -> Y) (l : list X) (n : nat) (x : X) :
  nth_error l n = Some x -> List.length (map f (firstn n l)) = n.
Proof.
  revert n. induction l as [|y l IH]; intros [|n] H; simpl in *;
    try discriminate; try reflexivity.
  f_equal. now apply IH.
Qed.

Lemma In_firstn {X : Type} (l : list X) (n : nat) (x : X) :
  In x (firstn n l) -> In x l.
Proof.
  revert n. induction l as [|y l IH]; intros [|n] H; simpl in *; try tauto.
  destruct H as [H|H]; [now left | right; eapply IH; exact H].
Qed.

Lemma filepath_of_truncated (available : Z) (d : doc) :
  filepath_of (truncated_doc self available d) = filepath_of d.
Proof.
  unfold filepath_of, truncated_doc, Py.default_get.
  now rewrite lookup_insert_ne.
Qed.

Lemma content_of_truncated (available : Z) (d : doc) :
  content_of (truncated_doc self available d)
  = truncated_content (max_content_tokens self available d * 3) (content_of d).
Proof.
  unfold content_of at 1, truncated_doc, Py.default_get.
  now rewrite lookup_insert_eq.
Qed.

(** A chunk in its in-prompt form at position 1 is as long as its header
    plus its content. *)
Lemma len_chunk_text_1 (filepath content : string) :
  Py.len (chunk_text 1 filepath content)
  = Py.len (header_text filepath) + Py.len content.
Proof.
  unfold chunk_text, header_text. rewrite !len_append.
  change (Py.len (Py.str 1)) with 1.
  change (Py.len Py.nl) with 1.
  change (Py.len "--- Code Snippet ") with 17.
  change (Py.len "--- Code Snippet 1 from ") with 24.
  change (Py.len " from ") with 6.
  lia.
Qed.

Lemma len_truncated_content (max_chars : Z) (content : string) :
  0 <= max_chars ->
  Py.len (truncated_content max_chars content) <= max_chars + 3.
Proof.
  intros H. unfold truncated_content.
  destruct (max_chars <? Py.len content) eqn:E.
  - rewrite len_append, len_slice_to by lia. change (Py.len "...") with 3. lia.
  - lia.
Qed.

(** Under the [len // 4] fallback the truncated copy fits what is
    available. *)
Lemma truncated_fits_fallback (available : Z) (d : doc) :
  (forall text, tokenizer self text = None) ->
  50 < max_content_tokens self available d ->
  rendered_cost self [truncated_doc self available d] <= available.
Proof.
  intros Hfb Hmin. unfold rendered_cost. simpl.
  rewrite filepath_of_truncated, content_of_truncated.
  unfold max_content_tokens in *.
  rewrite !count_tokens_fallback in * by assumption. rewrite len_chunk_text_1.
  set (h := Py.len (header_text (filepath_of d))) in *.
  pose proof (len_truncated_content ((available - h / 4) * 3) (content_of d)
                ltac:(lia)) as Hlen.
  pose proof (len_nonneg (header_text (filepath_of d))) as Hh. fold h in Hh.
  set (c := Py.len (truncated_content _ _)) in *.
  assert (Hq : (h + c) / 4 <= available); [|lia].
  apply Z.lt_succ_r, Z.div_lt_upper_bound; [lia|].
  pose proof (Z.div_mod h 4 ltac:(lia)). pose proof (Z.mod_pos_bound h 4 ltac:(lia)).
  lia.
Qed.

End Budgeter.

Section BudgeterClaims.
Import RAGEngine.
Local Open Scope list_scope.

(** C1, as the code has it. If the scaffold and the 200-token margin fit
    the budget, and either the lowest-distance candidate fits whole (or
    there is none) or tokens are counted by the [len // 4] fallback, then
    scaffold cost + margin + the rendered costs of the accepted chunks is
    at most the budget. *)
Theorem budget_invariant (self : t) (retrieved : list (doc * Q)) (query : string) :
  count_tokens self (base_prompt query) + 200 <= max_context_tokens self ->
  first_fits self retrieved query = true
    \/ (forall text, tokenizer self text = None) ->
  count_tokens self (base_prompt query) + 200
    + rendered_cost self (select_chunks_within_limit self retrieved query)
  <= max_context_tokens self.
Proof.
  intros Hbase Hcase.
  unfold select_chunks_within_limit.
  change 0 with (rendered_cost self []).
  destruct (select_loop_greedy self (available_tokens self query)
              (sorted snd retrieved) []) as (n & Hfit & Hres).
  simpl in Hfit, Hres.
  assert (Havail : forall chunks,
             rendered_cost self chunks <= available_tokens self query ->
             count_tokens self (base_prompt query) + 200 + rendered_cost self chunks
             <= max_context_tokens self)
    by (unfold available_tokens; intros; lia).
  destruct Hres as [[Hn ->]|(d & score & Hnth & Hover & ->)].
  - destruct Hfit as [->|Hfit]; [simpl; change (rendered_cost self []) with 0; lia|].
    now apply Havail.
  - unfold stop_result. rewrite (prefix_length fst _ _ _ Hnth).
    destruct n as [|n].
    + simpl firstn in *. simpl map in *. simpl app in Hover.
      destruct (200 <? available_tokens self query); simpl andb; cbv iota;
        [|change (rendered_cost self []) with 0; lia].
      destruct (50 <? max_content_tokens self (available_tokens self query) d) eqn:E;
        [|change (rendered_cost self []) with 0; lia].
      simpl app. apply Havail.
      destruct Hcase as [Hff|Hfb].
      * exfalso. unfold first_fits in Hff.
        destruct (sorted snd retrieved) as [|[d' s'] rest]; [discriminate|].
        simpl in Hnth. injection Hnth as -> ->.
        apply Z.leb_le in Hff. unfold rendered_cost in Hover. simpl in Hover. lia.
      * apply truncated_fits_fallback; [assumption | now apply Z.ltb_lt].
    + replace (Z.of_nat (S n) =? 0) with false by (symmetry; apply Z.eqb_neq; lia).
      simpl andb. cbv iota. destruct Hfit as [Hfit|Hfit]; [discriminate | now apply Havail].
Qed.

Lemma budget_invariant_witness :
  let self := fallback_engine 1000 in
  count_tokens self (base_prompt "") + 200
    + rendered_cost self (select_chunks_within_limit self Spec.long_candidate "")
  <= max_context_tokens self.
Proof.
  apply (budget_invariant (fallback_engine 1000) Spec.long_candidate "").
  - vm_compute. discriminate.
  - right. intros text. reflexivity.
Defined.

(** C1 as stated fails: with a budget of 100 tokens and no candidate the
    selection is empty, and scaffold (126) plus margin (200) exceed the
    budget. The same happens at the budget of 10000 that the constructor
    sets, with a query of 40000 characters and a small candidate. *)
Lemma budget_invariant_fails_small_budget :
  (let self := fallback_engine 100 in
   select_chunks_within_limit self [] "" = []
   /\ count_tokens self (base_prompt "") = 126
   /\ ~ (count_tokens self (base_prompt "") + 200
           + rendered_cost self (select_chunks_within_limit self [] "")
         <= max_context_tokens self))
  /\ (let self := fallback_engine 10000 in
      select_chunks_within_limit self Spec.two_of_one_file Spec.long_query = []
      /\ count_tokens self (base_prompt Spec.long_query) = 10126
      /\ ~ (count_tokens self (base_prompt Spec.long_query) + 200
              + rendered_cost self
                  (select_chunks_within_limit self Spec.two_of_one_file Spec.long_query)
            <= max_context_tokens self)).
Proof.
  split; repeat split; try (vm_compute; reflexivity);
    vm_compute; intros H; now apply H.
Qed.

(** The truncated copy can overflow when a tokenizer yields more than one
    token per three characters: with one token per character and a
    budget of 1006, the single chunk returned costs 833 tokens against
    300 available. *)
Example truncated_overflow_char_tokens :
  let self := char_engine 1006 in
  available_tokens self "" = 300
  /\ rendered_cost self (select_chunks_within_limit self Spec.long_candidate "") = 833.
Proof. split; vm_compute; reflexivity. Qed.

(** C2. The candidates are taken in ascending order of distance (a stable
    sort of the input), a prefix of them is accepted, and the loop stops
    at the first candidate whose cost does not fit what is left: nothing
    after it is accepted. When the prefix is empty the stop may return the
    truncated copy of that first candidate instead. In particular, for
    five candidates of equal cost [c] with distances 0.1 to 0.5, given in
    any order, and [2c <= available < 3c], the selection is the two of
    lowest distance. *)
Theorem greedy_stop (self : t) (query : string) :
  (forall retrieved : list (doc * Q),
      let available := available_tokens self query in
      let cand := sorted snd retrieved in
      Permutation cand retrieved
      /\ StronglySorted (key_le snd) cand
      /\ exists n : nat,
          let acc := map fst (firstn n cand) in
          (n = 0%nat \/ rendered_cost self acc <= available)
          /\ ((n = List.length cand
               /\ select_chunks_within_limit self retrieved query = acc)
              \/ (exists d score,
                     nth_error cand n = Some (d, score)
                     /\ available < rendered_cost self (acc ++ [d])
                     /\ select_chunks_within_limit self retrieved query
                        = stop_result self available acc d)))
  /\ (forall (retrieved : list (doc * Q)) (d1 d2 d3 d4 d5 : doc) (c : Z),
         Permutation retrieved
           [(d1, 1 # 10); (d2, 2 # 10); (d3, 3 # 10); (d4, 4 # 10); (d5, 5 # 10)]%Q ->
         (forall i d, 1 <= i <= 5 -> In d [d1; d2; d3; d4; d5] ->
                      count_tokens self (chunk_text i (filepath_of d) (content_of d)) = c) ->
         2 * c <= available_tokens self query < 3 * c ->
         select_chunks_within_limit self retrieved query = [d1; d2]).
Proof.
  split.
  - intros retrieved available cand.
    split; [apply sorted_perm|]. split; [apply sorted_StronglySorted|].
    unfold select_chunks_within_limit. change 0 with (rendered_cost self []).
    destruct (select_loop_greedy self available cand []) as (n & Hfit & Hres).
    exists n. exact (conj Hfit Hres).
  - intros retrieved d1 d2 d3 d4 d5 c Hperm Hcost Havail.
    set (l5 := [(d1, 1 # 10); (d2, 2 # 10); (d3, 3 # 10); (d4, 4 # 10); (d5, 5 # 10)]%Q) in *.
    assert (Hsorted : sorted snd retrieved = l5).
    { apply (ascending_unique snd).
      - apply sorted_StronglySorted.
      - subst l5. repeat constructor.
      - rewrite sorted_perm. exact Hperm. }
    assert (H1 : rendered_cost self [d1] = c).
    { change [d1] with ([] ++ [d1]). rewrite rendered_cost_snoc.
      change (rendered_cost self []) with 0. simpl List.length. simpl Z.of_nat.
      rewrite (Hcost _ d1); [lia | lia | simpl; tauto]. }
    assert (H2 : rendered_cost self [d1; d2] = 2 * c).
    { change [d1; d2] with ([d1] ++ [d2]). rewrite rendered_cost_snoc, H1.
      simpl List.length. simpl Z.of_nat.
      rewrite (Hcost _ d2); [lia | lia | simpl; tauto]. }
    assert (H3 : rendered_cost self [d1; d2; d3] = 3 * c).
    { change [d1; d2; d3] with ([d1; d2] ++ [d3]). rewrite rendered_cost_snoc, H2.
      simpl List.length. simpl Z.of_nat.
      rewrite (Hcost _ d3); [lia | lia | simpl; tauto]. }
    unfold select_chunks_within_limit. rewrite Hsorted. subst l5.
    change 0 with (rendered_cost self []).
    rewrite select_loop_accept by (simpl app; lia). simpl app.
    rewrite select_loop_accept by (simpl app; lia). simpl app.
    rewrite select_loop_stop by (simpl app; lia).
    reflexivity.
Qed.

(** The loop stops at the long chunk: the small chunk after it would fit
    (100 tokens, 574 left) and is not accepted. *)
Example later_cheaper_candidate_skipped :
  let self := fallback_engine 1000 in
  available_tokens self "" = 674
  /\ select_chunks_within_limit self Spec.small_long_small ""
     = [Spec.doc_of_size "a.py" 365]
  /\ rendered_cost self [Spec.doc_of_size "a.py" 365; Spec.doc_of_size "c.py" 365] = 200.
Proof. repeat split; vm_compute; reflexivity. Qed.

Example five_in_order :
  select_chunks_within_limit (fallback_engine 576) Spec.five_candidates ""
  = [Spec.doc_of_size "a.py" 365; Spec.doc_of_size "b.py" 365].
Proof. vm_compute. reflexivity. Qed.

Lemma greedy_stop_witness :
  select_chunks_within_limit (fallback_engine 576) Spec.five_shuffled ""
  = [Spec.doc_of_size "a.py" 365; Spec.doc_of_size "b.py" 365].
Proof.
  destruct (greedy_stop (fallback_engine 576) "") as [_ Hfive].
  apply (Hfive Spec.five_shuffled _ _ (Spec.doc_of_size "c.py" 365)
               (Spec.doc_of_size "d.py" 365) (Spec.doc_of_size "e.py" 365) 100).
  - unfold Spec.five_shuffled.
    apply Permutation_sym.
    eapply perm_trans; [|apply (Permutation_middle [_; _; _] [_])].
    apply perm_skip.
    eapply perm_trans; [|apply (Permutation_middle [_] [_; _])].
    apply perm_skip.
    eapply perm_trans; [|apply (Permutation_middle [_; _] [])].
    apply perm_skip. apply Permutation_refl.
  - intros i d Hi Hd.
    assert (Hcases : i = 1 \/ i = 2 \/ i = 3 \/ i = 4 \/ i = 5) by lia.
    simpl in Hd.
    destruct Hcases as [->|[->|[->|[->| ->]]]];
      destruct Hd as [<-|[<-|[<-|[<-|[<-|[]]]]]]; vm_compute; reflexivity.
  - vm_compute. split; [discriminate | reflexivity].
Defined.

(** C3, as the code has it. If the lowest-distance candidate [d] does not
    fit whole, more than 200 tokens are available and more than 50 remain
    after the header of [d], then exactly one chunk is returned: a copy of
    [d], the candidate of least distance, that differs only in its
    content, which is cut to three characters per remaining token and
    followed by "..." (and left whole if it is no longer than that).
    Under the [len // 4] fallback counter its rendered cost fits what is
    available. *)
Theorem truncation_fallback (self : t) (retrieved : list (doc * Q)) (query : string)
        (d : doc) (score : Q) (rest : list (doc * Q)) :
  let available := available_tokens self query in
  let max_chars := max_content_tokens self available d * 3 in
  sorted snd retrieved = (d, score) :: rest ->
  available < count_tokens self (chunk_text 1 (filepath_of d) (content_of d)) ->
  200 < available ->
  50 < max_content_tokens self available d ->
  select_chunks_within_limit self retrieved query = [truncated_doc self available d]
  /\ In (d, score) retrieved
  /\ (forall e, In e retrieved -> (score <= snd e)%Q)
  /\ truncated_doc self available d
     = <["content" := content_of (truncated_doc self available d)]> d
  /\ filepath_of (truncated_doc self available d) = filepath_of d
  /\ content_of (truncated_doc self available d)
     = (if max_chars <? Py.len (content_of d)
        then (Py.slice_to (content_of d) max_chars ++ "...")%string
        else content_of d)
  /\ ((forall text, tokenizer self text = None) ->
      rendered_cost self [truncated_doc self available d] <= available).
Proof.
  intros available max_chars Hsorted Hover Havail Hmin.
  split; [|split; [|split; [|split; [|split; [|split]]]]].
  - unfold select_chunks_within_limit. rewrite Hsorted.
    change 0 with (rendered_cost self []). fold available.
    rewrite select_loop_stop.
    + unfold stop_result. simpl List.length. simpl Z.of_nat.
      apply Z.ltb_lt in Havail, Hmin. rewrite Havail, Hmin. reflexivity.
    + unfold rendered_cost. simpl. lia.
  - apply (Permutation_in _ (sorted_perm snd retrieved)).
    rewrite Hsorted. now left.
  - intros e He. apply (sorted_head_least snd retrieved _ _ Hsorted e He).
  - rewrite content_of_truncated. reflexivity.
  - apply filepath_of_truncated.
  - rewrite content_of_truncated. reflexivity.
  - intros Hfb. now apply truncated_fits_fallback.
Qed.

Lemma truncation_fallback_witness :
  let self := fallback_engine 1000 in
  select_chunks_within_limit self Spec.long_candidate ""
  = [truncated_doc self 674 (Spec.doc_of_size "a.py" 4000)]
  /\ Py.len (content_of (truncated_doc self 674 (Spec.doc_of_size "a.py" 4000))) = 2001
  /\ rendered_cost self [truncated_doc self 674 (Spec.doc_of_size "a.py" 4000)] <= 674.
Proof.
  destruct (truncation_fallback (fallback_engine 1000) Spec.long_candidate ""
              (Spec.doc_of_size "a.py" 4000) (1 # 10)%Q [])
    as (Hsel & _ & _ & _ & _ & Hcontent & Hfits).
  - vm_compute. reflexivity.
  - vm_compute. reflexivity.
  - vm_compute. reflexivity.
  - vm_compute. reflexivity.
  - split; [exact Hsel|]. split; [vm_compute; reflexivity|].
    apply Hfits. intros text. reflexivity.
Defined.

(** C3 as stated fails twice over. With 150 tokens available, more than
    the 50 of the minimum-useful-content test, the first candidate does
    not fit and nothing is returned, because the code also asks for more
    than 200 available. And with a tokenizer of one token per character
    the one truncated chunk returned costs 833 tokens against 300
    available. *)
Lemma truncation_claim_fails :
  (let self := fallback_engine 476 in
   available_tokens self "" = 150
   /\ max_content_tokens self 150 (Spec.doc_of_size "a.py" 4000) = 142
   /\ first_fits self Spec.long_candidate "" = false
   /\ select_chunks_within_limit self Spec.long_candidate "" = [])
  /\ (let self := char_engine 1006 in
      available_tokens self "" = 300
      /\ first_fits self Spec.long_candidate "" = false
      /\ select_chunks_within_limit self Spec.long_candidate ""
         = [truncated_doc self 300 (Spec.doc_of_size "a.py" 4000)]
      /\ ~ (rendered_cost self (select_chunks_within_limit self Spec.long_candidate "")
            <= available_tokens self "")).
Proof.
  split; repeat split; try (vm_compute; reflexivity).
  vm_compute. intros H. now apply H.
Qed.

End BudgeterClaims.

(** ** Answer Synthesizer *)

Section Synthesizer.
Import RAGEngine.
Local Open Scope list_scope.
Variable self : t.

(** Every accepted chunk is a retrieved chunk or the truncated copy of
    one. *)
Lemma selected_origin (retrieved : list (doc * Q)) (query : string) (chunk : doc) :
  In chunk (select_chunks_within_limit self retrieved query) ->
  exists e, In e retrieved
            /\ (chunk = fst e
                \/ chunk = truncated_doc self (available_tokens self query) (fst e)).
Proof.
  unfold select_chunks_within_limit. change 0 with (rendered_cost self []).
  destruct (select_loop_greedy self (available_tokens self query)
              (sorted snd retrieved) []) as (n & _ & Hres).
  simpl in Hres.
  assert (Hacc : forall c, In c (map fst (firstn n (sorted snd retrieved))) ->
                           exists e, In e retrieved /\ c = fst e).
  { intros c Hc. apply in_map_iff in Hc as (e & <- & He).
    exists e. split; [|reflexivity].
    apply (Permutation_in _ (sorted_perm snd retrieved)).
    eapply In_firstn. exact He. }
  destruct Hres as [[_ ->]|(d & score & Hnth & _ & ->)]; intros Hin.
  - destruct (Hacc _ Hin) as (e & He & ->). exists e. tauto.
  - unfold stop_result in Hin.
    destruct (_ && _); [destruct (50 <? _)|].
    + apply in_app_or in Hin as [Hin|[<-|[]]].
      * destruct (Hacc _ Hin) as (e & He & ->). exists e. tauto.
      * exists (d, score). split; [|now right].
        apply (Permutation_in _ (sorted_perm snd retrieved)).
        eapply nth_error_In. exact Hnth.
    + destruct (Hacc _ Hin) as (e & He & ->). exists e. tauto.
    + destruct (Hacc _ Hin) as (e & He & ->). exists e. tauto.
Qed.

Lemma selected_path_retrieved (retrieved : list (doc * Q)) (query : string) (chunk : doc) :
  In chunk (select_chunks_within_limit self retrieved query) ->
  exists e, In e retrieved /\ filepath_of (fst e) = filepath_of chunk.
Proof.
  intros H. destruct (selected_origin _ _ _ H) as (e & He & [->| ->]);
    exists e; split; try assumption; [reflexivity|].
  symmetry. apply filepath_of_truncated.
Qed.

Lemma collect_sources_filter (paths : gset string) (retrieved : list (doc * Q)) :
  collect_sources paths retrieved
  = map make_source (filter (fun e => filepath_of (fst e) ∈ paths) retrieved).
Proof.
  induction retrieved as [|e rest IH]; simpl; [reflexivity|].
  rewrite filter_cons. unfold bool_decide.
  destruct (decide_rel elem_of _ _); destruct (decide _); simpl;
    try contradiction; now rewrite IH.
Qed.

Lemma elem_of_selected_filepaths (path : string) (chunks : list doc) :
  path ∈ selected_filepaths chunks
  <-> exists chunk, In chunk chunks /\ filepath_of chunk = path.
Proof.
  unfold selected_filepaths. rewrite elem_of_list_to_set, list_elem_of_In, in_map_iff.
  split; intros (c & H1 & H2); exists c; tauto.
Qed.

End Synthesizer.

Section SynthesizerClaims.
Import RAGEngine.
Local Open Scope list_scope.

(** C4, as the code has it. When the recount of the assembled prompt
    exceeds the budget, [create_prompt] raises a [ValueError] that names
    both numbers. [generate_answer] catches it in the same handler as a
    failure of the generative call, and in both cases returns a text: the
    prefix "Error generating answer: " followed by the message of the
    exception. Its caller receives no fault, only that text. *)
Theorem sizing_fault_becomes_text (self : t) (query : string) (chunks : list doc) :
  let prompt := assemble_prompt query chunks in
  let n := count_tokens self prompt in
  let limit := max_context_tokens self in
  let msg := ("Prompt exceeds token limit: " ++ Py.str n ++ " > " ++ Py.str limit)%string in
  (limit < n ->
     create_prompt self query chunks = Raise (ValueError msg)
     /\ generate_answer self query chunks = ("Error generating answer: " ++ msg)%string)
  /\ (n <= limit ->
      create_prompt self query chunks = Ok prompt
      /\ (forall e, client self prompt = Raise e ->
                    generate_answer self query chunks
                    = ("Error generating answer: " ++ exn_str e)%string)
      /\ (forall text, client self prompt = Ok text ->
                       generate_answer self query chunks = text)).
Proof.
  intros prompt n limit msg. split; intros H.
  - assert (Hc : create_prompt self query chunks = Raise (ValueError msg)).
    { unfold create_prompt. fold prompt. fold n. fold limit.
      apply Z.ltb_lt in H. rewrite H. reflexivity. }
    split; [exact Hc|]. unfold generate_answer. rewrite Hc. reflexivity.
  - assert (Hc : create_prompt self query chunks = Ok prompt).
    { unfold create_prompt. fold prompt. fold n. fold limit.
      apply Z.ltb_ge in H. rewrite H. reflexivity. }
    split; [exact Hc|].
    split; intros x Hx; unfold generate_answer; rewrite Hc, Hx; reflexivity.
Qed.

Lemma sizing_fault_becomes_text_witness :
  generate_answer (fallback_engine 100) "" []
  = "Error generating answer: Prompt exceeds token limit: 126 > 100"
  /\ generate_answer (Spec.failing_service 10000 "rate limit") "" []
     = "Error generating answer: rate limit".
Proof.
  split.
  - destruct (sizing_fault_becomes_text (fallback_engine 100) "" []) as [Hover _].
    apply Hover. vm_compute. reflexivity.
  - destruct (sizing_fault_becomes_text (Spec.failing_service 10000 "rate limit") "" [])
      as [_ Hfits].
    destruct Hfits as (_ & Hfail & _); [vm_compute; discriminate|].
    apply (Hfail (Exception "rate limit")). reflexivity.
Defined.

(** C4 as stated fails: the caller cannot tell a sizing fault from a
    failure of the generative call, nor from an answer. An engine whose
    prompt is over budget, one whose service call fails with the same
    message, and one whose service answers that text all return the same
    bundle. *)
Lemma sizing_fault_not_distinct :
  let over_budget := fallback_engine 100 in
  let call_fails :=
    Spec.failing_service 10000 "Prompt exceeds token limit: 126 > 100" in
  let answers :=
    Spec.answering_service 10000
      "Error generating answer: Prompt exceeds token limit: 126 > 100" in
  create_prompt over_budget "" []
    = Raise (ValueError "Prompt exceeds token limit: 126 > 100")
  /\ (exists prompt, create_prompt call_fails "" [] = Ok prompt)
  /\ answer_question over_budget "" [] = answer_question call_fails "" []
  /\ answer_question over_budget "" [] = answer_question answers "" [].
Proof.
  repeat split; try (vm_compute; reflexivity).
  eexists. vm_compute. reflexivity.
Qed.

(** C9, as the code has it. The citations are the retrieved chunks, in
    retrieval order, whose source path is the path of some accepted chunk:
    one citation per such retrieved chunk, so a path is cited as many
    times as it was retrieved. Each citation carries the path, the score
    of its retrieved chunk and a preview, the first 200 characters of the
    content followed by "...". Every accepted path is cited, and no path
    outside the accepted set is. *)
Theorem sources_follow_accepted_paths (self : t) (query : string)
        (retrieved : list (doc * Q)) :
  let accepted := select_chunks_within_limit self retrieved query in
  let result := answer_question self query retrieved in
  sources result
  = map make_source
        (filter (fun e => filepath_of (fst e) ∈ selected_filepaths accepted) retrieved)
  /\ (forall e, make_source e
                = {| src_filepath := filepath_of (fst e);
                     src_score := snd e;
                     src_preview := (Py.slice_to (content_of (fst e)) 200 ++ "...")%string |})
  /\ (forall s, In s (sources result) ->
                exists chunk, In chunk accepted /\ filepath_of chunk = src_filepath s)
  /\ (forall chunk, In chunk accepted ->
                    exists s, In s (sources result) /\ src_filepath s = filepath_of chunk)
  /\ chunks_used result = Z.of_nat (List.length accepted)
  /\ chunks_retrieved result = Z.of_nat (List.length retrieved).
Proof.
  intros accepted result.
  assert (Hsrc : sources result
                 = map make_source
                     (filter (fun e => filepath_of (fst e) ∈ selected_filepaths accepted)
                             retrieved))
    by apply collect_sources_filter.
  split; [exact Hsrc|]. split; [reflexivity|].
  split; [|split; [|split; reflexivity]].
  - intros s Hs. rewrite Hsrc in Hs. apply in_map_iff in Hs as (e & <- & He).
    apply list_elem_of_In, list_elem_of_filter in He as [Hpath _].
    apply elem_of_selected_filepaths in Hpath. exact Hpath.
  - intros chunk Hchunk.
    destruct (selected_path_retrieved self retrieved query chunk Hchunk) as (e & He & Hpath).
    exists (make_source e). split; [|exact Hpath].
    rewrite Hsrc. apply in_map. apply list_elem_of_In, list_elem_of_filter.
    split; [|now apply list_elem_of_In].
    apply elem_of_selected_filepaths. exists chunk. split; [exact Hchunk | now symmetry].
Qed.

(** C9 as stated fails: two retrieved chunks of one file are both
    accepted, the accepted set has one distinct path, and the file is
    cited twice. *)
Lemma sources_cite_a_path_twice :
  let self := fallback_engine 10000 in
  let accepted := select_chunks_within_limit self Spec.two_of_one_file "" in
  let result := answer_question self "" Spec.two_of_one_file in
  List.length accepted = 2%nat
  /\ elements (selected_filepaths accepted) = ["a.py"%string]
  /\ map src_filepath (sources result) = ["a.py"; "a.py"]%string
  /\ List.length (sources result) <> List.length (elements (selected_filepaths accepted)).
Proof.
  repeat split; try (vm_compute; reflexivity).
  vm_compute. discriminate.
Qed.

End SynthesizerClaims.

(** ** Similarity Index *)

Section Index.
Import VectorStore.
Local Open Scope list_scope.









End Index.

Section IndexClaims.
Import VectorStore.
Local Open Scope list_scope.



(** With vectors stored, a [k] that is not positive is refused by the
    flat index, and [search] passes the refusal on. *)
Example search_nonpositive_k :
  search Spec.built_store "qq" 0 = Raise (AssertionError "k > 0").
Proof. vm_compute. reflexivity. Qed.

(** C8. On an index that was never built, or that holds no vector,
    [search] returns the empty list for every query and every [k], and
    raises nothing. *)
Theorem search_empty_index (self : t) (query : string) (k : Z) :
  index self = None \/ index self = Some [] ->
  search self query k = Ok [].
Proof.
  intros [H|H]; unfold search; rewrite H; reflexivity.
Qed.

Lemma search_empty_index_witness :
  search (init length_provider) "anything" (-3) = Ok []
  /\ search {| model := length_provider; index := Some []; documents := [] |}
            "anything" 5 = Ok [].
Proof.
  split; apply search_empty_index; [left | right]; reflexivity.
Defined.

End IndexClaims.

(** ** The budgeter and the dictionaries it is given *)

Section Frame.
Import RAGEngine.
Local Open Scope list_scope.
Variable self : t.

Lemma deref_lookup (σ : RAGEngineRefs.store) (l : positive) (d : doc) :
  σ !! l = Some d -> RAGEngineRefs.deref σ l = d.
Proof. intros H. unfold RAGEngineRefs.deref. now rewrite H. Qed.

Lemma copy_then_set (σ : RAGEngineRefs.store) (l : positive) (d : doc) (k v : string) :
  σ !! l = Some d ->
  RAGEngineRefs.bind (RAGEngineRefs.dict_copy l)
    (fun l' => RAGEngineRefs.bind (RAGEngineRefs.dict_set l' k v)
                 (fun _ => RAGEngineRefs.ret [l'])) σ
  = Some ([fresh (dom σ)], <[fresh (dom σ) := <[k := v]> d]> σ).
Proof.
  intros Hl. unfold RAGEngineRefs.bind, RAGEngineRefs.dict_copy, RAGEngineRefs.dict_set,
    RAGEngineRefs.ret.
  rewrite Hl. rewrite lookup_insert_eq. now rewrite insert_insert_eq.
Qed.

(** The loop over references: it returns, it leaves every dictionary of
    the store as it was, it computes what the loop over values computes,
    and what it returns is either references it was given or one new
    reference to a truncated copy. *)
Lemma refs_loop_spec (available : Z) (cand : list (positive * Q)) :
  forall (selected : list positive) (current : Z) (σ : RAGEngineRefs.store),
    Forall (fun e => is_Some (σ !! fst e)) cand ->
    Forall (fun l => is_Some (σ !! l)) selected ->
    exists locs σ',
      RAGEngineRefs.select_loop self available cand selected current σ = Some (locs, σ')
      /\ (forall l d, σ !! l = Some d -> σ' !! l = Some d)
      /\ map (RAGEngineRefs.deref σ') locs
         = select_loop self available (map (RAGEngineRefs.deref_scored σ) cand)
                       (map (RAGEngineRefs.deref σ) selected) current
      /\ ((σ' = σ /\ Forall (fun l => In l selected \/ In l (map fst cand)) locs)
          \/ (exists l0 l' d,
                 In l0 (map fst cand) /\ σ !! l0 = Some d /\ σ !! l' = None
                 /\ selected = [] /\ locs = [l']
                 /\ σ' = <[l' := truncated_doc self available d]> σ)).
Proof.
  induction cand as [|[l score] rest IH]; intros selected current σ Hcand Hsel.
  - exists selected, σ. simpl. repeat split; try tauto.
    left. split; [reflexivity|]. apply List.Forall_forall. tauto.
  - inversion Hcand as [|? ? [d Hl] Hrest]; subst. simpl in Hl.
    simpl RAGEngineRefs.select_loop.
    unfold RAGEngineRefs.bind at 1. unfold RAGEngineRefs.dict_get at 1. rewrite Hl.
    unfold RAGEngineRefs.bind at 1. unfold RAGEngineRefs.dict_get at 1. rewrite Hl.
    simpl map. unfold RAGEngineRefs.deref_scored at 1. simpl fst. simpl snd.
    rewrite (deref_lookup σ l d Hl). simpl select_loop.
    rewrite length_map. fold (filepath_of d). fold (content_of d).
    destruct (current + _ <=? available) eqn:Efit.
    + destruct (IH (selected ++ [l]) (current
                  + count_tokens self
                      (chunk_text (Z.of_nat (List.length selected) + 1)
                                  (filepath_of d) (content_of d))) σ Hrest)
        as (locs & σ' & Hrun & Hframe & Hval & Hshape).
      { apply Forall_app. split; [exact Hsel|]. constructor; [eauto | constructor]. }
      exists locs, σ'. split; [exact Hrun|]. split; [exact Hframe|].
      split.
      { rewrite Hval, map_app. simpl. now rewrite (deref_lookup σ l d Hl). }
      destruct Hshape as [[-> Hall]|(l0 & l' & d0 & _ & _ & _ & Hnil & _)].
      * left. split; [reflexivity|]. eapply List.Forall_impl; [|exact Hall].
        simpl. intros x [Hx|Hx]; [|tauto].
        apply in_app_or in Hx as [Hx|[<-|[]]]; tauto.
      * destruct selected; discriminate.
    + assert (Hkeep : exists locs σ',
                 RAGEngineRefs.ret selected σ = Some (locs, σ')
                 /\ (forall l1 d1, σ !! l1 = Some d1 -> σ' !! l1 = Some d1)
                 /\ map (RAGEngineRefs.deref σ') locs = map (RAGEngineRefs.deref σ) selected
                 /\ ((σ' = σ
                      /\ Forall (fun l1 => In l1 selected \/ In l1 (map fst ((l, score) :: rest)))
                                locs)
                     \/ (exists l0 l' d0,
                            In l0 (map fst ((l, score) :: rest)) /\ σ !! l0 = Some d0
                            /\ σ !! l' = None /\ selected = [] /\ locs = [l']
                            /\ σ' = <[l' := truncated_doc self available d0]> σ))).
      { exists selected, σ. repeat split; try tauto.
        left. split; [reflexivity|]. apply List.Forall_forall. tauto. }
      destruct (Z.of_nat (List.length selected) =? 0) eqn:Elen; simpl andb;
        [|exact Hkeep].
      destruct (200 <? available); simpl andb; [|exact Hkeep].
      fold (max_content_tokens self available d).
      destruct (50 <? max_content_tokens self available d); [|exact Hkeep].
      clear Hkeep. destruct selected as [|? ?]; [|simpl in Elen; lia].
      simpl app. simpl map.
      pose proof (is_fresh (dom σ)) as Hfresh.
      apply not_elem_of_dom in Hfresh.
      exists [fresh (dom σ)], (<[fresh (dom σ) := truncated_doc self available d]> σ).
      split; [apply (copy_then_set σ l d _ _ Hl)|].
      split.
      { intros l1 d1 H1. rewrite lookup_insert_ne; [exact H1 | congruence]. }
      split.
      { simpl. unfold RAGEngineRefs.deref. now rewrite lookup_insert_eq. }
      right. exists l, (fresh (dom σ)), d. simpl. tauto.
Qed.

End Frame.

Section FrameClaims.
Import RAGEngine.
Local Open Scope list_scope.

(** C10. [select_chunks_within_limit] does not mutate what it is given.
    Run on references to dictionaries, it returns; every dictionary that
    was in the store, the candidates among them, is the same afterwards;
    its result is the one the method computes on the values. What it
    returns is either references it was given, with the store untouched,
    or, when it truncates, one reference that did not exist before: it
    holds a copy of a candidate with the content replaced by the
    truncated one, and that candidate still has its full content. *)
Theorem select_does_not_mutate (self : t) (σ : gmap positive (gmap string string))
        (retrieved : list (positive * Q)) (query : string) :
  Forall (fun e => is_Some (σ !! fst e)) retrieved ->
  exists locs σ',
    RAGEngineRefs.select_chunks_within_limit self retrieved query σ = Some (locs, σ')
    /\ (forall l d, σ !! l = Some d -> σ' !! l = Some d)
    /\ map (RAGEngineRefs.deref σ') locs
       = select_chunks_within_limit self (map (RAGEngineRefs.deref_scored σ) retrieved) query
    /\ ((σ' = σ /\ Forall (fun l => In l (map fst retrieved)) locs)
        \/ (exists l0 l' d,
               In l0 (map fst retrieved) /\ σ !! l0 = Some d /\ σ !! l' = None
               /\ locs = [l']
               /\ σ' !! l' = Some (truncated_doc self (available_tokens self query) d)
               /\ σ' !! l0 = Some d
               /\ (forall l, l <> l' -> σ' !! l = σ !! l))).
Proof.
  intros Hvalid.
  assert (Hmem : forall l, In l (map fst (sorted snd retrieved)) -> In l (map fst retrieved)).
  { intros l Hl. apply in_map_iff in Hl as (e & <- & He). apply in_map.
    apply (Permutation_in _ (sorted_perm snd retrieved)). exact He. }
  destruct (refs_loop_spec self (available_tokens self query) (sorted snd retrieved)
              [] 0 σ) as (locs & σ' & Hrun & Hframe & Hval & Hshape).
  { rewrite List.Forall_forall in *. intros e He. apply Hvalid.
    apply (Permutation_in _ (sorted_perm snd retrieved)). exact He. }
  { constructor. }
  exists locs, σ'. split; [exact Hrun|]. split; [exact Hframe|]. split.
  - rewrite Hval. unfold select_chunks_within_limit.
    rewrite (sorted_map snd (RAGEngineRefs.deref_scored σ) retrieved). reflexivity.
  - destruct Hshape as [[-> Hall]|(l0 & l' & d & H0 & H1 & H2 & _ & H3 & ->)].
    + left. split; [reflexivity|]. eapply List.Forall_impl; [|exact Hall].
      simpl. intros l [[]|Hl]. now apply Hmem.
    + right. exists l0, l', d. split; [now apply Hmem|].
      split; [exact H1|]. split; [exact H2|]. split; [exact H3|].
      split; [apply lookup_insert_eq|].
      split; [rewrite lookup_insert_ne; [exact H1 | congruence]|].
      intros l Hne. now rewrite lookup_insert_ne.
Qed.

Lemma select_does_not_mutate_witness :
  exists locs σ',
    RAGEngineRefs.select_chunks_within_limit (fallback_engine 1000)
      Spec.one_reference "" Spec.one_object_store = Some (locs, σ')
    /\ σ' !! 1%positive = Some (Spec.doc_of_size "a.py" 4000)
    /\ map (RAGEngineRefs.deref σ') locs
       = select_chunks_within_limit (fallback_engine 1000) Spec.long_candidate "".
Proof.
  destruct (select_does_not_mutate (fallback_engine 1000) Spec.one_object_store
              Spec.one_reference "") as (locs & σ' & Hrun & Hframe & Hval & _).
  - repeat constructor. eexists. reflexivity.
  - exists locs, σ'. split; [exact Hrun|]. split.
    + apply Hframe. reflexivity.
    + exact Hval.
Defined.

(** On that store the method truncates: it returns one reference, 2,
    that was not bound before; the candidate behind reference 1 keeps its
    4000 characters and the copy behind 2 holds 2001. *)
Example select_truncates_a_copy :
  match RAGEngineRefs.select_chunks_within_limit (fallback_engine 1000)
          Spec.one_reference "" Spec.one_object_store with
  | Some (locs, σ') =>
      locs = [2%positive]
      /\ Spec.one_object_store !! 2%positive = None
      /\ Py.len (content_of (RAGEngineRefs.deref σ' 1%positive)) = 4000
      /\ Py.len (content_of (RAGEngineRefs.deref σ' 2%positive)) = 2001
  | None => False
  end.
Proof. vm_compute. repeat split. Qed.

End FrameClaims.

(** * Further properties of the code *)

(** ** More on slices *)

Section SliceFacts.

Lemma length_substring_exact (n m : nat) (s : string) :
  String.length (String.substring n m s) = Nat.min m (String.length s - n).
Proof.
  revert n m. induction s as [|a s IH]; intros [|n] [|m]; simpl; try reflexivity.
  - rewrite (IH 0%nat m). now rewrite Nat.sub_0_r.
  - apply (IH n 0%nat).
  - apply (IH n (S m)).
Qed.

Lemma substring_substring (n m k : nat) (s : string) :
  (k <= m)%nat ->
  String.substring 0 k (String.substring n m s) = String.substring n k s.
Proof.
  revert n m k. induction s as [|a s IH]; intros [|n] [|m] [|k] H; simpl;
    try reflexivity; try lia.
  - f_equal. apply (IH 0%nat m k). lia.
  - apply (IH n 0%nat 0%nat). lia.
  - apply (IH n (S m) 0%nat). lia.
  - apply (IH n (S m) (S k)). lia.
Qed.

(** [len(s[a:b])] for a start inside the text. *)
Lemma len_slice_clip (s : string) (a b : Z) :
  0 <= a <= Py.len s -> a <= b ->
  Py.len (Py.slice s a b) = Z.min b (Py.len s) - a.
Proof.
  intros Ha Hb. unfold Py.slice, Py.norm.
  destruct (a <? 0) eqn:E1; [lia|]. destruct (b <? 0) eqn:E2; [lia|].
  rewrite (Z.min_l a) by lia.
  unfold Py.len at 1. rewrite length_substring_exact. unfold Py.len in *. lia.
Qed.

Lemma norm_inside (n i : Z) : 0 <= i <= n -> Py.norm n i = i.
Proof. intros H. unfold Py.norm. destruct (i <? 0) eqn:E; lia. Qed.

Lemma slice_inside (s : string) (a b : Z) :
  0 <= a <= b -> b <= Py.len s ->
  Py.slice s a b = String.substring (Z.to_nat a) (Z.to_nat (b - a)) s.
Proof. intros H1 H2. unfold Py.slice. now rewrite !norm_inside by lia. Qed.

(** [s[a:e][:k]] is [s[a:a+k]] when [k] does not exceed the slice. *)
Lemma slice_to_slice (s : string) (a e k : Z) :
  0 <= a <= Py.len s -> 0 <= k <= Py.len (Py.slice s a e) ->
  Py.slice_to (Py.slice s a e) k = Py.slice s a (a + k).
Proof.
  intros Ha Hk.
  assert (Hle : Py.len (Py.slice s a e) <= Py.len s - a).
  { unfold Py.slice. rewrite (norm_inside _ a) by lia. unfold Py.len at 1.
    rewrite length_substring_exact. unfold Py.len in *. lia. }
  unfold Py.slice_to. rewrite (slice_inside (Py.slice s a e) 0 k) by lia.
  rewrite (slice_inside s a (a + k)) by lia.
  replace (a + k - a) with k by lia. rewrite Z.sub_0_r.
  unfold Py.slice. rewrite (norm_inside _ a) by lia.
  change (Z.to_nat 0) with 0%nat.
  apply substring_substring.
  unfold Py.slice in Hk. rewrite (norm_inside _ a) in Hk by lia.
  unfold Py.len in Hk at 1. rewrite length_substring_exact in Hk. lia.
Qed.

End SliceFacts.

(** ** Segmenter: progress, coverage and chunk sizes *)

Section ChunkerProgress.
Import CodeChunker.
Local Open Scope list_scope.

(** From a window chain, every position at or after the start offset is
    inside some window. *)
Lemma window_chain_covers (size overlap n : Z) (bounds : list (Z * Z)) :
  0 <= overlap ->
  forall s p,
    Spec.window_chain size overlap n s bounds ->
    s <= p < n ->
    exists a b, In (a, b) bounds /\ a <= p < b.
Proof.
  intros Hov. induction bounds as [|[a b] rest IH]; intros s p Hc Hp; simpl in Hc.
  - lia.
  - destruct Hc as (-> & Ha & Hb & Hrest).
    destruct (Z.lt_ge_cases p b) as [Hlt|Hge].
    + exists s, b. split; [now left | lia].
    + destruct (IH (b - overlap) p Hrest ltac:(lia)) as (a' & b' & Hin & Hp').
      exists a', b'. split; [now right | exact Hp'].
Qed.

(** The last window of a chain ends at or after the end of the text. *)
Lemma window_chain_last (size overlap n : Z) (bounds : list (Z * Z)) :
  0 <= overlap ->
  forall s, Spec.window_chain size overlap n s bounds -> bounds <> [] ->
            exists a b, List.last bounds (0, 0) = (a, b) /\ n <= b.
Proof.
  intros Hov. induction bounds as [|[a b] rest IH]; intros s Hc Hne; [congruence|].
  simpl in Hc. destruct Hc as (-> & Ha & Hb & Hrest).
  destruct rest as [|w rest'].
  - exists s, b. split; [reflexivity|]. simpl in Hrest. lia.
  - destruct (IH (b - overlap) Hrest ltac:(discriminate)) as (a' & b' & Hl & Hn).
    exists a', b'. split; [exact Hl | exact Hn].
Qed.

(** Every window of a chain is between one and [size] characters of the
    text. *)
Lemma window_chain_sizes (text : string) (size overlap : Z) (bounds : list (Z * Z)) :
  forall s, Spec.window_chain size overlap (Py.len text) s bounds ->
            Forall (fun c => 1 <= Py.len c <= size) (map (Spec.window text) bounds).
Proof.
  induction bounds as [|[a b] rest IH]; intros s Hc; simpl; [constructor|].
  simpl in Hc. destruct Hc as (-> & Ha & Hb & Hrest).
  constructor; [|eapply IH; exact Hrest].
  unfold Spec.window. simpl fst. simpl snd. rewrite len_slice_clip by lia. lia.
Qed.

Variable self : t.
Hypothesis size_pos : 0 < chunk_size self.
Hypothesis overlap_small : 0 <= chunk_overlap self <= chunk_size self / 2.

(** With an overlap of at most half the size every round moves the start
    forward, so the loop ends, and its chunks are the windows of a
    chain. *)
Lemma chunk_loop_chain (text : string) :
  chunk_size self < Py.len text ->
  forall (fuel : nat) (start : Z) (chunks : list string),
    0 <= start ->
    Z.max 0 (Py.len text - start) < Z.of_nat fuel ->
    exists bounds,
      chunk_loop fuel self text start chunks
      = Some (chunks ++ map (Spec.window text) bounds)
      /\ Spec.window_chain (chunk_size self) (chunk_overlap self) (Py.len text)
                           start bounds.
Proof.
  intros Hlong. induction fuel as [|fuel IH]; intros start chunks Hstart Hfuel; [lia|].
  simpl chunk_loop. destruct (start <? Py.len text) eqn:E.
  - apply Z.ltb_lt in E.
    pose proof (len_slice_window text start (chunk_size self) size_pos Hlong) as Hwin.
    pose proof (rfind_lt_len Py.newline
                  (Py.slice text start (start + chunk_size self))) as Hrf.
    assert (Hhalf : chunk_size self / 2 < chunk_size self)
      by (apply Z.div_lt; lia).
    assert (Hhalf0 : 0 <= chunk_size self / 2) by (apply Z.div_pos; lia).
    destruct (start + chunk_size self <? Py.len text) eqn:E2;
      [destruct (chunk_size self / 2 <? _) eqn:E3|].
    + apply Z.ltb_lt in E3.
      set (k := Py.rfind (Py.slice text start (start + chunk_size self)) Py.newline) in *.
      rewrite slice_to_slice by lia.
      destruct (IH (start + k - chunk_overlap self)
                   (chunks ++ [Py.slice text start (start + k)]))
        as (bounds & Hrun & Hchain); [lia | lia |].
      exists ((start, start + k) :: bounds). split.
      * rewrite Hrun, <- app_assoc. reflexivity.
      * simpl. repeat split; try lia. exact Hchain.
    + destruct (IH (start + chunk_size self - chunk_overlap self)
                   (chunks ++ [Py.slice text start (start + chunk_size self)]))
        as (bounds & Hrun & Hchain); [lia | lia |].
      exists ((start, start + chunk_size self) :: bounds). split.
      * rewrite Hrun, <- app_assoc. reflexivity.
      * simpl. repeat split; try lia. exact Hchain.
    + destruct (IH (start + chunk_size self - chunk_overlap self)
                   (chunks ++ [Py.slice text start (start + chunk_size self)]))
        as (bounds & Hrun & Hchain); [lia | lia |].
      exists ((start, start + chunk_size self) :: bounds). split.
      * rewrite Hrun, <- app_assoc. reflexivity.
      * simpl. repeat split; try lia. exact Hchain.
  - apply Z.ltb_ge in E. exists []. simpl. rewrite app_nil_r. split; [reflexivity | exact E].
Qed.

Lemma chunk_text_chain (text : string) (fuel : nat) :
  chunk_size self < Py.len text ->
  Py.len text < Z.of_nat fuel ->
  exists bounds,
    chunk_text fuel self text = Some (map (Spec.window text) bounds)
    /\ Spec.window_chain (chunk_size self) (chunk_overlap self) (Py.len text) 0 bounds.
Proof.
  intros Hlong Hfuel. unfold chunk_text.
  destruct (Py.len text <=? chunk_size self) eqn:E; [lia|].
  destruct (chunk_loop_chain text Hlong fuel 0 [] ltac:(lia) ltac:(lia))
    as (bounds & Hrun & Hchain).
  exists bounds. split; [exact Hrun | exact Hchain].
Qed.


End ChunkerProgress.

Section ChunkerExtras.
Import CodeChunker.
Local Open Scope list_scope.

(** X1. With a positive size and an overlap between 0 and half the size,
    [chunk_text] on a text longer than the size returns (fuel above the
    length of the text is enough), and its chunks are the slices of a chain
    of windows: the first starts at offset 0, each next one starts
    [overlap] before the end of the one before. So every position of the
    text lies in some chunk, and the last chunk runs to the end of the
    text. *)
Theorem chunk_text_covers (self : t) (text : string) (fuel : nat) :
  0 < chunk_size self ->
  0 <= chunk_overlap self <= chunk_size self / 2 ->
  chunk_size self < Py.len text ->
  Py.len text < Z.of_nat fuel ->
  exists bounds,
    chunk_text fuel self text = Some (map (Spec.window text) bounds)
    /\ Spec.window_chain (chunk_size self) (chunk_overlap self) (Py.len text) 0 bounds
    /\ (forall p, 0 <= p < Py.len text -> exists a b, In (a, b) bounds /\ a <= p < b)
    /\ (exists a b, List.last bounds (0, 0) = (a, b) /\ Py.len text <= b).
Proof.
  intros Hsize Hov Hlong Hfuel.
  destruct (chunk_text_chain self Hsize Hov text fuel Hlong Hfuel) as (bounds & Hrun & Hchain).
  exists bounds. split; [exact Hrun|]. split; [exact Hchain|]. split.
  - intros p Hp. eapply window_chain_covers; [|exact Hchain|lia]. lia.
  - eapply window_chain_last; [|exact Hchain|]; [lia|].
    destruct bounds; [|discriminate]. simpl in Hchain. pose proof (len_nonneg text). lia.
Qed.

Lemma chunk_text_covers_witness :
  exists bounds,
    chunk_text 11 (init 4 1) "abcdefghij" = Some (map (Spec.window "abcdefghij") bounds)
    /\ Spec.window_chain 4 1 10 0 bounds
    /\ (forall p, 0 <= p < 10 -> exists a b, In (a, b) bounds /\ a <= p < b)
    /\ (exists a b, List.last bounds (0, 0) = (a, b) /\ 10 <= b).
Proof.
  apply (chunk_text_covers (init 4 1) "abcdefghij" 11).
  - reflexivity.
  - vm_compute. split; discriminate.
  - reflexivity.
  - reflexivity.
Defined.

(** X2. With a positive size and an overlap between 0 and half the size,
    [chunk_text] returns for every text, it returns at least one chunk, and
    no chunk is longer than the size. *)
Theorem chunk_text_sizes (self : t) (text : string) (fuel : nat) :
  0 < chunk_size self ->
  0 <= chunk_overlap self <= chunk_size self / 2 ->
  Py.len text < Z.of_nat fuel ->
  exists chunks,
    chunk_text fuel self text = Some chunks
    /\ chunks <> []
    /\ Forall (fun c => Py.len c <= chunk_size self) chunks.
Proof.
  intros Hsize Hov Hfuel.
  destruct (Z.le_gt_cases (Py.len text) (chunk_size self)) as [Hshort|Hlong].
  - exists [text]. unfold chunk_text.
    destruct (Py.len text <=? chunk_size self) eqn:E; [|lia].
    split; [reflexivity|]. split; [discriminate|]. now constructor.
  - destruct (chunk_text_chain self Hsize Hov text fuel Hlong Hfuel)
      as (bounds & Hrun & Hchain).
    exists (map (Spec.window text) bounds). split; [exact Hrun|]. split.
    + destruct bounds; [|discriminate]. simpl in Hchain. pose proof (len_nonneg text). lia.
    + eapply List.Forall_impl; [|eapply window_chain_sizes; exact Hchain].
      simpl. intros c Hc. lia.
Qed.

Lemma chunk_text_sizes_witness :
  exists chunks,
    chunk_text 30 (init 10 5) Spec.text_newline_at_6 = Some chunks
    /\ chunks <> []
    /\ Forall (fun c => Py.len c <= 10) chunks.
Proof.
  apply (chunk_text_sizes (init 10 5) Spec.text_newline_at_6 30).
  - reflexivity.
  - vm_compute. split; discriminate.
  - reflexivity.
Defined.

(** The loop on a text without newline, [m] rounds before it ends. *)
Lemma chunk_loop_stride (self : t) (text : string) :
  Py.free_of Py.newline text = true ->
  0 <= chunk_overlap self < chunk_size self ->
  forall (m j fuel : nat) (chunks : list string),
    (m < fuel)%nat ->
    Py.len text <= Z.of_nat (j + m) * (chunk_size self - chunk_overlap self) ->
    (m <> 0%nat ->
     (Z.of_nat (j + m) - 1) * (chunk_size self - chunk_overlap self) < Py.len text) ->
    chunk_loop fuel self text (Z.of_nat j * (chunk_size self - chunk_overlap self)) chunks
    = Some (chunks ++ map (Spec.stride_window text (chunk_size self) (chunk_overlap self))
                          (seq j m)).
Proof.
  intros Hfree Hcfg. set (stride := chunk_size self - chunk_overlap self).
  assert (Hstride : 0 < stride) by (subst stride; lia).
  induction m as [|m IH]; intros j fuel chunks Hfuel Hend Hlast.
  - destruct fuel as [|fuel]; [lia|].
    rewrite chunk_loop_exit; [simpl; now rewrite app_nil_r|].
    replace (j + 0)%nat with j in Hend by lia. exact Hend.
  - destruct fuel as [|fuel]; [lia|].
    specialize (Hlast ltac:(discriminate)).
    assert (Hj : Z.of_nat j * stride < Py.len text) by nia.
    rewrite chunk_loop_plain by (assumption || lia).
    replace (Z.of_nat j * stride + chunk_size self - chunk_overlap self)
      with (Z.of_nat (S j) * stride) by (subst stride; lia).
    rewrite (IH (S j) fuel); [| lia | | ].
    + rewrite <- app_assoc. reflexivity.
    + replace (S j + m)%nat with (j + S m)%nat by lia. exact Hend.
    + intros _. replace (S j + m)%nat with (j + S m)%nat by lia. exact Hlast.
Qed.

(** X3. On a text without newline and longer than the size, with
    [0 <= overlap < size], [chunk_text] returns the windows of width [size]
    that start at the multiples of [size - overlap] below the length of the
    text, in order: as many chunks as the length divided by the stride,
    rounded up. *)
Theorem chunk_text_plain_windows (self : t) (text : string) (fuel : nat) :
  let stride := chunk_size self - chunk_overlap self in
  let n := Z.to_nat ((Py.len text + stride - 1) / stride) in
  0 <= chunk_overlap self < chunk_size self ->
  Py.free_of Py.newline text = true ->
  chunk_size self < Py.len text ->
  (n < fuel)%nat ->
  chunk_text fuel self text
  = Some (map (Spec.stride_window text (chunk_size self) (chunk_overlap self)) (seq 0 n)).
Proof.
  intros stride n Hcfg Hfree Hlong Hfuel.
  assert (Hstride : 0 < stride) by (subst stride; lia).
  pose proof (len_nonneg text) as Hlen.
  set (q := (Py.len text + stride - 1) / stride) in *.
  assert (Hq : q * stride <= Py.len text + stride - 1 < (q + 1) * stride).
  { pose proof (Z.div_mod (Py.len text + stride - 1) stride ltac:(lia)) as Hdm.
    pose proof (Z.mod_pos_bound (Py.len text + stride - 1) stride Hstride) as Hmod.
    fold q in Hdm. nia. }
  assert (Hq0 : 0 <= q) by (apply Z.div_pos; lia).
  unfold chunk_text. destruct (Py.len text <=? chunk_size self) eqn:E; [lia|].
  apply (chunk_loop_stride self text Hfree Hcfg n 0 fuel []); [exact Hfuel | |].
  - fold stride. simpl Nat.add. subst n. rewrite Z2Nat.id by lia. nia.
  - intros _. fold stride. simpl Nat.add. subst n. rewrite Z2Nat.id by lia. nia.
Qed.

Lemma chunk_text_plain_windows_witness :
  chunk_text 4 (init 3000 200) Spec.text_7000
  = Some (map (Spec.stride_window Spec.text_7000 3000 200) (seq 0 3)).
Proof.
  apply (chunk_text_plain_windows (init 3000 200) Spec.text_7000 4).
  - vm_compute. split; [discriminate | reflexivity].
  - vm_compute. reflexivity.
  - vm_compute. reflexivity.
  - vm_compute. lia.
Defined.

(** X4. An overlap above half the size can stop the loop from moving,
    also when it is below the size: if the last newline of the first window
    sits at index [overlap], the first round shortens the window to that
    newline and the next round starts at offset 0 again. [chunk_text] then
    returns with no amount of fuel. *)
Theorem chunk_text_stuck_on_newline (self : t) (text : string) :
  0 < chunk_size self ->
  chunk_size self / 2 < chunk_overlap self ->
  chunk_size self < Py.len text ->
  Py.rfind (Py.slice text 0 (chunk_size self)) Py.newline = chunk_overlap self ->
  forall fuel, chunk_text fuel self text = None.
Proof.
  intros Hsize Hov Hlong Hnl fuel. unfold chunk_text.
  destruct (Py.len text <=? chunk_size self) eqn:E; [lia|].
  generalize (@nil string) as chunks.
  induction fuel as [|fuel IH]; intros chunks; [reflexivity|].
  simpl chunk_loop. destruct (0 <? Py.len text) eqn:E0; [|lia].
  replace (0 + chunk_size self) with (chunk_size self) by lia.
  destruct (chunk_size self <? Py.len text) eqn:E1; [|lia].
  rewrite Hnl. destruct (chunk_size self / 2 <? chunk_overlap self) eqn:E2; [|lia].
  replace (0 + chunk_overlap self - chunk_overlap self) with 0 by lia.
  apply IH.
Qed.

Lemma chunk_text_stuck_on_newline_witness :
  chunk_text 1000 (init 10 6) Spec.text_newline_at_6 = None.
Proof.
  apply (chunk_text_stuck_on_newline (init 10 6) Spec.text_newline_at_6).
  - reflexivity.
  - reflexivity.
  - reflexivity.
  - reflexivity.
Defined.

End ChunkerExtras.

(** ** Segmenter over documents *)

Section ChunkDocuments.
Import CodeChunker CodeChunkerDocs.
Local Open Scope list_scope.

Lemma stamp_spec (d : gmap string string) (total : Z) (chunks : list string) :
  forall (i : Z) (stamped : list chunk),
    stamp d total i chunks = Ok stamped ->
    map content stamped = chunks
    /\ map chunk_id stamped = map (fun k => i + Z.of_nat k) (seq 0 (List.length chunks))
    /\ Forall (fun c => total_chunks c = total
                        /\ d !! "filepath" = Some (filepath c)
                        /\ d !! "filename" = Some (filename c)) stamped.
Proof.
  induction chunks as [|text rest IH]; intros i stamped H; simpl in H.
  - injection H as <-. repeat split; constructor.
  - destruct (d !! "filepath") as [path|] eqn:Ep; [|discriminate].
    destruct (d !! "filename") as [name|] eqn:En; [|discriminate].
    destruct (stamp d total (i + 1) rest) as [more|e] eqn:Es; [|discriminate].
    injection H as <-. destruct (IH (i + 1) more Es) as (Hc & Hi & Hall).
    simpl. split; [now rewrite Hc|]. split.
    + f_equal; [lia|]. rewrite Hi, <- seq_shift, map_map.
      apply map_ext. intros k. lia.
    + constructor; [simpl; tauto | exact Hall].
Qed.


(** X5. When [chunk_documents] returns a list, the list is made of one
    group of chunks per document, in the order of the documents: the
    contents of a group are the chunks [chunk_text] makes of the
    document's content, in order; their [chunk_id] count from 0 without a
    gap; [total_chunks] is the size of the group; [filepath] and [filename]
    are the document's. *)
Theorem chunk_documents_groups (self : t) (fuel : nat)
        (documents : list (gmap string string)) (out : list chunk) :
  chunk_documents fuel self documents = Some (Ok out) ->
  exists groups : list (list chunk),
    out = concat groups
    /\ Forall2 (fun d g =>
                  exists text texts,
                    d !! "content" = Some text
                    /\ chunk_text fuel self text = Some texts
                    /\ map content g = texts
                    /\ map chunk_id g = map Z.of_nat (seq 0 (List.length texts))
                    /\ Forall (fun c => total_chunks c = Z.of_nat (List.length texts)
                                        /\ d !! "filepath" = Some (filepath c)
                                        /\ d !! "filename" = Some (filename c)) g)
               documents groups.
Proof.
  revert out. induction documents as [|d rest IH]; intros out H; simpl in H.
  - injection H as <-. exists []. split; [reflexivity | constructor].
  - destruct (d !! "content") as [text|] eqn:Ec; [|discriminate].
    destruct (chunk_text fuel self text) as [texts|] eqn:Et; [|discriminate].
    destruct (stamp d _ 0 texts) as [stamped|e] eqn:Es; [|discriminate].
    destruct (chunk_documents fuel self rest) as [[more|e]|] eqn:Er; try discriminate.
    injection H as <-. destruct (IH more eq_refl) as (groups & -> & Hall).
    exists (stamped :: groups). split; [reflexivity|].
    constructor; [|exact Hall].
    destruct (stamp_spec d _ texts 0 stamped Es) as (Hc & Hi & Hf).
    exists text, texts. repeat split; assumption.
Qed.

Lemma chunk_documents_groups_witness :
  exists out groups,
    chunk_documents 20 (init 4 1) Spec.two_documents = Some (Ok out)
    /\ List.length out = 5%nat
    /\ out = concat groups
    /\ List.length groups = 2%nat.
Proof.
  eassert (E : chunk_documents 20 (init 4 1) Spec.two_documents = Some (Ok _))
    by (vm_compute; reflexivity).
  destruct (chunk_documents_groups _ _ _ _ E) as (groups & Hout & Hall).
  eexists _, groups. split; [exact E|]. split; [reflexivity|]. split; [exact Hout|].
  apply Forall2_length in Hall. now rewrite <- Hall.
Defined.

(** X6. Documents that have the three keys and a content no longer than
    the chunk size pass through one to one, whatever the overlap: each
    gives a single chunk with its whole content, [chunk_id] 0 and
    [total_chunks] 1, in the order of the documents. *)
Theorem chunk_documents_short (self : t) (fuel : nat)
        (documents : list (gmap string string)) :
  Forall (fun d => is_Some (d !! "filepath") /\ is_Some (d !! "filename")
                   /\ exists text, d !! "content" = Some text
                                   /\ Py.len text <= chunk_size self) documents ->
  chunk_documents fuel self documents = Some (Ok (map Spec.single_chunk documents)).
Proof.
  induction 1 as [|d rest ([path Hp] & [name Hn] & text & Hc & Hlen) _ IH]; simpl;
    [reflexivity|].
  rewrite Hc. unfold chunk_text.
  destruct (Py.len text <=? chunk_size self) eqn:E; [|lia].
  simpl. rewrite Hp, Hn, IH. unfold Spec.single_chunk, Py.default_get.
  now rewrite Hc, Hp, Hn.
Qed.

Lemma chunk_documents_short_witness :
  chunk_documents 0 (init 10 200) Spec.two_documents
  = Some (Ok (map Spec.single_chunk Spec.two_documents)).
Proof.
  apply chunk_documents_short. unfold Spec.two_documents.
  repeat (apply List.Forall_cons;
          [split; [eexists; reflexivity|];
           split; [eexists; reflexivity|];
           eexists; split; [reflexivity | vm_compute; discriminate]|]).
  apply List.Forall_nil.
Defined.

(** X7. A document without the key ['content'] makes the whole call raise
    [KeyError], whatever the documents before it produced and whatever
    follows. The same holds for a document without ['filepath'] once its
    content gives at least one chunk. *)
Theorem chunk_documents_missing_key (self : t) (fuel : nat)
        (before after : list (gmap string string)) (d : gmap string string)
        (out : list chunk) :
  chunk_documents fuel self before = Some (Ok out) ->
  (d !! "content" = None ->
   chunk_documents fuel self (before ++ d :: after)
   = Some (Raise (Exception "KeyError: 'content'")))
  /\ (forall text first more,
         d !! "content" = Some text ->
         chunk_text fuel self text = Some (first :: more) ->
         d !! "filepath" = None ->
         chunk_documents fuel self (before ++ d :: after)
         = Some (Raise (Exception "KeyError: 'filepath'"))).
Proof.
  revert out. induction before as [|b before IH]; intros out H.
  - split.
    + intros Hc. simpl. now rewrite Hc.
    + intros text first more Hc Ht Hp. simpl. rewrite Hc, Ht. simpl. now rewrite Hp.
  - simpl in H. simpl app. simpl chunk_documents.
    destruct (b !! "content") as [text|]; [|discriminate].
    destruct (chunk_text fuel self text) as [texts|]; [|discriminate].
    destruct (stamp b _ 0 texts) as [stamped|e]; [|discriminate].
    destruct (chunk_documents fuel self before) as [[more|e]|]; try discriminate.
    destruct (IH more eq_refl) as [H1 H2]. split.
    + intros Hc. now rewrite (H1 Hc).
    + intros text' first more' Hc Ht Hp. now rewrite (H2 text' first more' Hc Ht Hp).
Qed.

Lemma chunk_documents_missing_key_witness :
  chunk_documents 20 (init 4 1) (Spec.two_documents ++ [∅])
  = Some (Raise (Exception "KeyError: 'content'"))
  /\ chunk_documents 20 (init 4 1)
       (Spec.two_documents ++ Spec.content_only "text" :: Spec.two_documents)
     = Some (Raise (Exception "KeyError: 'filepath'")).
Proof.
  eassert (E : chunk_documents 20 (init 4 1) Spec.two_documents = Some (Ok _))
    by (vm_compute; reflexivity).
  split.
  - destruct (chunk_documents_missing_key (init 4 1) 20 Spec.two_documents [] ∅ _ E)
      as [H _].
    apply H. reflexivity.
  - destruct (chunk_documents_missing_key (init 4 1) 20 Spec.two_documents
                Spec.two_documents (Spec.content_only "text") _ E) as [_ H].
    apply (H "text" "text" []); reflexivity.
Defined.

End ChunkDocuments.

(** ** Context Budgeter: what is returned when *)

Section BudgeterMore.
Import RAGEngine.
Local Open Scope list_scope.
Variable self : t.

Lemma nth_error_split_at {X : Type} (l : list X) (n : nat) (x : X) :
  nth_error l n = Some x -> l = firstn n l ++ x :: skipn (S n) l.
Proof.
  revert n. induction l as [|y l IH]; intros [|n] H; simpl in *; try discriminate.
  - now injection H as ->.
  - f_equal. now apply IH.
Qed.

(** The cost of a prefix of a selection is at most the cost of the
    selection. *)
Lemma rendered_cost_prefix (l1 l2 : list doc) :
  rendered_cost self l1 <= rendered_cost self (l1 ++ l2).
Proof.
  unfold rendered_cost. rewrite rendered_cost_from_app.
  pose proof (rendered_cost_from_nonneg self (1 + Z.of_nat (List.length l1)) l2). lia.
Qed.


Lemma selection_length (retrieved : list (doc * Q)) (query : string) :
  (List.length (select_chunks_within_limit self retrieved query)
   <= List.length retrieved)%nat.
Proof.
  unfold select_chunks_within_limit. change 0 with (rendered_cost self []).
  destruct (select_loop_greedy self (available_tokens self query)
              (sorted snd retrieved) []) as (n & _ & Hres).
  simpl in Hres. rewrite <- (sorted_length snd retrieved).
  destruct Hres as [[_ ->]|(d & score & Hnth & _ & ->)].
  - rewrite length_map, length_firstn. lia.
  - assert (Hn : (n < List.length (sorted snd retrieved))%nat)
      by (apply nth_error_Some; congruence).
    unfold stop_result. rewrite (prefix_length fst _ _ _ Hnth).
    destruct n as [|n].
    + simpl. destruct (200 <? _); simpl; [destruct (50 <? _)|]; simpl; lia.
    + replace (Z.of_nat (S n) =? 0) with false by (symmetry; apply Z.eqb_neq; lia).
      simpl andb. cbv iota. rewrite length_map, length_firstn. lia.
Qed.

(** Under the [len // 4] counter the accepted chunks cost at most what is
    available, once scaffold and margin fit the budget. *)
Lemma selection_cost_fallback (retrieved : list (doc * Q)) (query : string) :
  (forall text, tokenizer self text = None) ->
  0 <= available_tokens self query ->
  rendered_cost self (select_chunks_within_limit self retrieved query)
  <= available_tokens self query.
Proof.
  intros Hfb Havail.
  unfold select_chunks_within_limit. change 0 with (rendered_cost self []).
  destruct (select_loop_greedy self (available_tokens self query)
              (sorted snd retrieved) []) as (n & Hfit & Hres).
  simpl in Hfit, Hres.
  assert (Hacc : rendered_cost self (map fst (firstn n (sorted snd retrieved)))
                 <= available_tokens self query).
  { destruct Hfit as [->|Hfit]; [simpl; change (rendered_cost self []) with 0; lia|].
    exact Hfit. }
  destruct Hres as [[_ ->]|(d & score & Hnth & _ & ->)]; [exact Hacc|].
  unfold stop_result. destruct (_ && _) eqn:E; [|exact Hacc].
  destruct (50 <? _) eqn:E50; [|exact Hacc].
  apply andb_true_iff in E as [E _]. apply Z.eqb_eq in E.
  destruct (map fst (firstn n (sorted snd retrieved))); [|simpl in E; lia].
  simpl app. apply truncated_fits_fallback; [exact Hfb | now apply Z.ltb_lt].
Qed.

(** Under the [len // 4] counter a rendered context is at most four
    characters per counted token, plus three per chunk. *)
Lemma len_context_text_fallback (chunks : list doc) :
  (forall text, tokenizer self text = None) ->
  forall i,
    Py.len (context_text_from i chunks)
    <= 4 * rendered_cost_from self i chunks + 3 * Z.of_nat (List.length chunks).
Proof.
  intros Hfb. induction chunks as [|c rest IH]; intros i.
  - simpl. unfold Py.len. simpl. lia.
  - simpl context_text_from. simpl rendered_cost_from. rewrite len_append.
    rewrite (count_tokens_fallback self _ Hfb).
    specialize (IH (i + 1)).
    set (x := Py.len (chunk_text i (filepath_of c) (content_of c))) in *.
    pose proof (Z.div_mod x 4 ltac:(lia)). pose proof (Z.mod_pos_bound x 4 ltac:(lia)).
    simpl List.length. lia.
Qed.

Lemma len_assemble_prompt (query : string) (chunks : list doc) :
  Py.len (assemble_prompt query chunks)
  = Py.len (base_prompt query) + Py.len (context_text chunks) + 1.
Proof.
  unfold assemble_prompt, base_prompt. rewrite !len_append.
  change (Py.len Py.nl) with 1. lia.
Qed.

End BudgeterMore.

Section BudgeterExtras.
Import RAGEngine.
Local Open Scope list_scope.

(** X8. When all candidates together, rendered in order of distance, cost
    no more than what is available, every candidate is accepted, whole and
    in ascending order of distance. *)
Theorem select_all_when_fits (self : t) (retrieved : list (doc * Q)) (query : string) :
  rendered_cost self (map fst (sorted snd retrieved)) <= available_tokens self query ->
  select_chunks_within_limit self retrieved query = map fst (sorted snd retrieved).
Proof.
  intros Hfit. unfold select_chunks_within_limit. change 0 with (rendered_cost self []).
  destruct (select_loop_greedy self (available_tokens self query)
              (sorted snd retrieved) []) as (n & _ & Hres).
  simpl in Hres. destruct Hres as [[Hn ->]|(d & score & Hnth & Hover & _)].
  - rewrite Hn. now rewrite firstn_all.
  - exfalso. rewrite (nth_error_split_at _ _ _ Hnth) in Hfit at 1.
    rewrite map_app in Hfit. simpl map in Hfit.
    change (map fst (firstn n (sorted snd retrieved))
              ++ d :: map fst (skipn (S n) (sorted snd retrieved)))
      with (map fst (firstn n (sorted snd retrieved))
              ++ [d] ++ map fst (skipn (S n) (sorted snd retrieved))) in Hfit.
    rewrite app_assoc in Hfit.
    pose proof (rendered_cost_prefix self
                  (map fst (firstn n (sorted snd retrieved)) ++ [d])
                  (map fst (skipn (S n) (sorted snd retrieved)))). lia.
Qed.

Lemma select_all_when_fits_witness :
  select_chunks_within_limit (fallback_engine 10000) Spec.five_shuffled ""
  = map fst (sorted snd Spec.five_shuffled).
Proof.
  apply select_all_when_fits. vm_compute. discriminate.
Defined.

(** X9. When the budget is below the cost of the scaffold plus the margin
    of 200, nothing is selected, whatever the candidates. *)
Theorem select_nothing_below_margin (self : t) (retrieved : list (doc * Q))
        (query : string) :
  max_context_tokens self < count_tokens self (base_prompt query) + 200 ->
  select_chunks_within_limit self retrieved query = [].
Proof.
  intros Hlow.
  assert (Hneg : available_tokens self query < 0) by (unfold available_tokens; lia).
  unfold select_chunks_within_limit.
  destruct (sorted snd retrieved) as [|[d score] rest]; [reflexivity|].
  change 0 with (rendered_cost self []).
  pose proof (rendered_cost_from_nonneg self 1 ([] ++ [d])) as Hc.
  fold (rendered_cost self ([] ++ [d])) in Hc.
  rewrite select_loop_stop by lia.
  unfold stop_result.
  destruct (200 <? available_tokens self query) eqn:E2; [apply Z.ltb_lt in E2; lia|].
  now rewrite andb_false_r.
Qed.

Lemma select_nothing_below_margin_witness :
  select_chunks_within_limit (fallback_engine 300) Spec.five_shuffled "" = [].
Proof.
  apply select_nothing_below_margin. vm_compute. reflexivity.
Defined.



(** X11. [answer_question] never reports more chunks used than retrieved,
    and the two counts in its result are the lengths of the selection and
    of the retrieved list. *)
Theorem chunks_used_at_most_retrieved (self : t) (query : string)
        (retrieved : list (doc * Q)) :
  0 <= chunks_used (answer_question self query retrieved)
    <= chunks_retrieved (answer_question self query retrieved)
  /\ chunks_retrieved (answer_question self query retrieved)
     = Z.of_nat (List.length retrieved).
Proof.
  unfold answer_question. simpl.
  pose proof (selection_length self retrieved query). lia.
Qed.

(** X12. When the distances of the candidates are pairwise different, the
    selection does not depend on the order in which the candidates are
    given. *)
Theorem select_order_irrelevant (self : t) (retrieved retrieved' : list (doc * Q))
        (query : string) :
  Permutation retrieved retrieved' ->
  StronglySorted (key_lt snd) (sorted snd retrieved) ->
  select_chunks_within_limit self retrieved' query
  = select_chunks_within_limit self retrieved query.
Proof.
  intros Hperm Hstrict. unfold select_chunks_within_limit.
  replace (sorted snd retrieved') with (sorted snd retrieved); [reflexivity|].
  symmetry. apply (ascending_unique snd).
  - apply sorted_StronglySorted.
  - exact Hstrict.
  - rewrite !sorted_perm. now apply Permutation_sym.
Qed.

Lemma select_order_irrelevant_witness :
  select_chunks_within_limit (fallback_engine 576) Spec.five_shuffled ""
  = select_chunks_within_limit (fallback_engine 576) Spec.five_candidates "".
Proof.
  apply select_order_irrelevant.
  - unfold Spec.five_candidates, Spec.five_shuffled.
    eapply perm_trans; [|apply (Permutation_middle [_; _; _] [_])].
    apply perm_skip.
    eapply perm_trans; [|apply (Permutation_middle [_] [_; _])].
    apply perm_skip.
    eapply perm_trans; [|apply (Permutation_middle [_; _] [])].
    apply perm_skip. apply Permutation_refl.
  - rewrite sorted_of_ascending.
    + unfold Spec.five_candidates. repeat constructor.
    + unfold Spec.five_candidates. repeat constructor; unfold key_le; simpl; discriminate.
Defined.

(** X13. Under the [len // 4] counter the defensive recount cannot fire on
    a selection of the budgeter: if scaffold and margin fit the budget and
    at most 266 chunks were retrieved, [create_prompt] on the selection
    returns the prompt. (Each rendered piece can hide up to three
    characters from the count; the margin of 200 tokens absorbs them.) *)
Theorem selection_passes_recount (self : t) (retrieved : list (doc * Q)) (query : string) :
  (forall text, tokenizer self text = None) ->
  count_tokens self (base_prompt query) + 200 <= max_context_tokens self ->
  (List.length retrieved <= 266)%nat ->
  create_prompt self query (select_chunks_within_limit self retrieved query)
  = Ok (assemble_prompt query (select_chunks_within_limit self retrieved query)).
Proof.
  intros Hfb Hbase Hcount.
  set (chunks := select_chunks_within_limit self retrieved query).
  assert (Hcost : rendered_cost self chunks <= available_tokens self query)
    by (apply selection_cost_fallback; [exact Hfb | unfold available_tokens; lia]).
  assert (Hlen : (List.length chunks <= 266)%nat)
    by (pose proof (selection_length self retrieved query); subst chunks; lia).
  unfold create_prompt.
  destruct (max_context_tokens self <? _) eqn:E; [|reflexivity].
  exfalso. apply Z.ltb_lt in E.
  rewrite (count_tokens_fallback self _ Hfb) in E.
  rewrite (count_tokens_fallback self _ Hfb) in Hbase.
  rewrite len_assemble_prompt in E.
  pose proof (len_context_text_fallback self chunks Hfb 1) as Hctx.
  fold (context_text chunks) in Hctx. fold (rendered_cost self chunks) in Hctx.
  unfold available_tokens in Hcost.
  rewrite (count_tokens_fallback self _ Hfb) in Hcost.
  set (b := Py.len (base_prompt query)) in *.
  set (c := Py.len (context_text chunks)) in *.
  pose proof (Z.div_mod b 4 ltac:(lia)). pose proof (Z.mod_pos_bound b 4 ltac:(lia)).
  assert ((b + c + 1) / 4 <= max_context_tokens self); [|lia].
  apply Z.lt_succ_r, Z.div_lt_upper_bound; lia.
Qed.

Lemma selection_passes_recount_witness :
  create_prompt (fallback_engine 1000) ""
    (select_chunks_within_limit (fallback_engine 1000) Spec.small_long_small "")
  = Ok (assemble_prompt ""
          (select_chunks_within_limit (fallback_engine 1000) Spec.small_long_small "")).
Proof.
  apply selection_passes_recount.
  - intros text. reflexivity.
  - vm_compute. discriminate.
  - simpl. lia.
Defined.

End BudgeterExtras.

(** ** Similarity Index: positions, nearest first, persistence *)

Section IndexMore.
Import VectorStore.
Local Open Scope list_scope.






End IndexMore.

Section IndexExtras.
Import VectorStore.
Local Open Scope list_scope.





(** X16. [save] then [load] with two different paths restores the index
    and the document list, into whatever store loads them, and [load]
    returns true. With one path for both files the documents overwrite
    the index, and [load] fails and leaves the loading store as it was. *)
Theorem save_then_load (self other : t) (index_path docs_path : string)
        (fs : gmap string blob) (vectors : list vec) :
  index self = Some vectors ->
  (index_path <> docs_path ->
   load other index_path docs_path (save self index_path docs_path fs)
   = ({| model := model other; index := Some vectors; documents := documents self |},
      true))
  /\ load other index_path index_path (save self index_path index_path fs)
     = (other, false).
Proof.
  intros Hidx. unfold save, load. rewrite Hidx. split.
  - intros Hne. rewrite lookup_insert_ne by congruence.
    rewrite lookup_insert_eq. now rewrite lookup_insert_eq.
  - now rewrite lookup_insert_eq.
Qed.

Lemma save_then_load_witness :
  load (init length_provider) "faiss_index.bin" "documents.pkl" Spec.saved_files
  = (Spec.built_store, true)
  /\ load (init length_provider) "store.bin" "store.bin"
          (save Spec.built_store "store.bin" "store.bin" ∅)
     = (init length_provider, false).
Proof.
  destruct (save_then_load Spec.built_store (init length_provider)
              "faiss_index.bin" "documents.pkl" ∅ [[4 # 1]; [1 # 1]; [3 # 1]]%Q eq_refl)
    as [Hgood _].
  destruct (save_then_load Spec.built_store (init length_provider)
              "store.bin" "store.bin" ∅ [[4 # 1]; [1 # 1]; [3 # 1]]%Q eq_refl)
    as [_ Hbad].
  split; [apply Hgood; discriminate | exact Hbad].
Defined.

(** X17. [load] is not all or nothing. When the index file can be read
    and the documents file cannot, [load] returns false but the store has
    the index of the file with the documents it had before. *)
Theorem load_fails_after_index (self : t) (index_path docs_path : string)
        (fs : gmap string blob) (vectors : list vec) :
  fs !! index_path = Some (IndexFile vectors) ->
  (forall docs, fs !! docs_path <> Some (PickleFile docs)) ->
  load self index_path docs_path fs
  = ({| model := model self; index := Some vectors; documents := documents self |},
     false).
Proof.
  intros Hi Hd. unfold load. rewrite Hi.
  destruct (fs !! docs_path) as [[v|docs]|] eqn:E; try reflexivity.
  exfalso. now apply (Hd docs).
Qed.

Lemma load_fails_after_index_witness :
  load Spec.built_store "faiss_index.bin" "documents.pkl" Spec.index_file_only
  = ({| model := length_provider; index := Some [[7 # 1]]%Q;
        documents := Spec.three_chunks |}, false).
Proof.
  apply (load_fails_after_index Spec.built_store "faiss_index.bin" "documents.pkl"
           Spec.index_file_only [[7 # 1]]%Q).
  - reflexivity.
  - intros docs. vm_compute. discriminate.
Defined.





End IndexExtras.

(** ** Repository loader *)

Example repo_name_examples :
  RepoLoader.repo_name "https://github.com/user/repo" = "repo"
  /\ RepoLoader.repo_name "https://github.com/user/repo.git" = "repo"
  /\ RepoLoader.repo_name "https://github.com/user/repo/" = "repo"
  /\ RepoLoader.repo_name "https://github.com/user/user.github.io" = "userhub.io"
  /\ RepoLoader.repo_name "https://github.com/user/.git" = ""
  /\ RepoLoader.repo_name "https://github.com/user/.." = "..".
Proof. repeat split; reflexivity. Qed.

Example suffix_examples :
  RepoLoader.suffix ["src"; "a.tar.gz"] = ".gz"
  /\ RepoLoader.suffix ["Makefile"] = ""
  /\ RepoLoader.suffix [".bashrc"] = ""
  /\ RepoLoader.suffix ["notes."] = "".
Proof. repeat split; reflexivity. Qed.

Example parse_files_tree :
  RepoLoader.parse_files ["repos"; "demo"] Spec.tree
  = [Spec.document "src/Main.PY" "Main.PY" ".PY" "print(1)";
     Spec.document "README.md" "README.md" ".md" "# demo"].
Proof. vm_compute. reflexivity. Qed.

Section UrlFacts.

Lemma free_of_append (c : ascii) (s1 s2 : string) :
  Py.free_of c (s1 ++ s2) = Py.free_of c s1 && Py.free_of c s2.
Proof.
  induction s1 as [|a s1 IH]; simpl; [reflexivity|].
  rewrite IH. now rewrite andb_assoc.
Qed.

Lemma rstrip_char_snoc (s : string) (c : ascii) :
  Py.rstrip_char (s ++ String c "") c = Py.rstrip_char s c.
Proof.
  induction s as [|a s IH]; simpl.
  - now rewrite Ascii.eqb_refl.
  - now rewrite IH.
Qed.

Lemma append_empty_r (s : string) : s ++ "" = s.
Proof.
  induction s as [|a s IH]; [reflexivity|].
  change (String a (s ++ "") = String a s). now rewrite IH.
Qed.

Lemma append_snoc_assoc (s t : string) (c : ascii) :
  (s ++ String c "") ++ t = s ++ String c t.
Proof.
  induction s as [|a s IH]; [reflexivity|].
  change (String a ((s ++ String c "") ++ t) = String a (s ++ String c t)).
  now rewrite IH.
Qed.

Lemma rstrip_char_replicate (s : string) (c : ascii) (n : nat) :
  Py.rstrip_char (s ++ Py.replicate_char n c) c = Py.rstrip_char s c.
Proof.
  revert s. induction n as [|n IH]; intros s; simpl.
  - now rewrite append_empty_r.
  - rewrite <- append_snoc_assoc, IH. apply rstrip_char_snoc.
Qed.

(** A string that ends in another character than [c] is left alone. *)
Lemma rstrip_char_keep (s : string) (x c : ascii) :
  x <> c -> Py.rstrip_char (s ++ String x "") c = s ++ String x "".
Proof.
  intros Hx. induction s as [|a s IH]; simpl.
  - apply Ascii.eqb_neq in Hx. now rewrite Hx.
  - rewrite IH. destruct s; reflexivity.
Qed.

Lemma split_nonempty (s : string) (c : ascii) : Py.split s c <> [].
Proof.
  destruct s as [|a s]; simpl; [discriminate|].
  destruct (Ascii.eqb a c); [discriminate|].
  destruct (Py.split s c); discriminate.
Qed.

Lemma split_free (s : string) (c : ascii) :
  Py.free_of c s = true -> Py.split s c = [s].
Proof.
  induction s as [|a s IH]; simpl; intros H; [reflexivity|].
  apply andb_true_iff in H as [Ha Hs]. apply negb_true_iff in Ha.
  rewrite Ha, (IH Hs). reflexivity.
Qed.

Lemma split_segments_free (s : string) (c : ascii) :
  Forall (fun seg => Py.free_of c seg = true) (Py.split s c).
Proof.
  induction s as [|a s IH]; simpl; [repeat constructor|].
  destruct (Ascii.eqb a c) eqn:E; [constructor; [reflexivity | exact IH]|].
  destruct (Py.split s c) as [|seg rest]; [repeat constructor; simpl; now rewrite E|].
  inversion IH as [|? ? Hseg Hrest]; subst.
  constructor; [simpl; now rewrite E, Hseg | exact Hrest].
Qed.

(** What follows the last separator is the last item of the split. *)
Lemma split_app_sep (p s : string) (c : ascii) :
  exists segs, Py.split (p ++ String c s) c = (segs ++ Py.split s c)%list /\ segs <> [].
Proof.
  induction p as [|a p (segs & Heq & Hne)]; simpl.
  - rewrite Ascii.eqb_refl. exists [""]. split; [reflexivity | discriminate].
  - destruct (Ascii.eqb a c).
    + exists ("" :: segs). rewrite Heq. split; [reflexivity | discriminate].
    + rewrite Heq. destruct segs as [|seg segs']; [congruence|].
      exists (String a seg :: segs'). split; [reflexivity | discriminate].
Qed.

Lemma last_item_after_sep (p s : string) (c : ascii) :
  Py.free_of c s = true -> Py.last_item (Py.split (p ++ String c s) c) = s.
Proof.
  intros Hs. destruct (split_app_sep p s c) as (segs & -> & _).
  rewrite (split_free s c Hs). unfold Py.last_item. now rewrite last_last.
Qed.

Lemma prefix_first_differs (o a : ascii) (old s : string) :
  o <> a -> String.prefix (String o old) (String a s) = false.
Proof. intros H. simpl. destruct (ascii_dec o a); [contradiction | reflexivity]. Qed.

(** A text without the first character of the pattern has no occurrence
    of the pattern. *)
Lemma replace_from_free (o : ascii) (old new s : string) :
  Py.free_of o s = true -> Py.replace_from (String o old) new 0 s = s.
Proof.
  induction s as [|a s IH]; intros H; [reflexivity|].
  simpl in H. apply andb_true_iff in H as [Ha Hs]. apply negb_true_iff in Ha.
  apply Ascii.eqb_neq in Ha.
  cbn [Py.replace_from]. rewrite prefix_first_differs by congruence.
  now rewrite (IH Hs).
Qed.

Lemma replace_git_inside (a b : string) :
  Py.free_of "."%char a = true -> Py.free_of "."%char b = true ->
  Py.replace (a ++ ".git" ++ b) ".git" "" = a ++ b.
Proof.
  intros Ha Hb. unfold Py.replace. induction a as [|x a IH].
  - simpl. destruct b as [|y b]; [reflexivity|].
    change (Py.replace_from ".git" "" 0 (String y b) = String y b).
    now apply replace_from_free.
  - simpl in Ha. apply andb_true_iff in Ha as [Hx Ha]. apply negb_true_iff in Hx.
    apply Ascii.eqb_neq in Hx.
    change (Py.replace_from ".git" "" 0 (String x (a ++ ".git" ++ b)) = String x (a ++ b)).
    cbn [Py.replace_from]. rewrite prefix_first_differs by congruence.
    now rewrite (IH Ha).
Qed.

(** Deleting occurrences of a pattern brings in no new character. *)
Lemma replace_from_delete_free (c : ascii) (old s : string) :
  Py.free_of c s = true ->
  forall skip, Py.free_of c (Py.replace_from old "" skip s) = true.
Proof.
  induction s as [|a s IH]; intros H skip; [reflexivity|].
  simpl in H. apply andb_true_iff in H as [Ha Hs].
  cbn [Py.replace_from]. destruct skip as [|k]; [|now apply IH].
  destruct (String.prefix old (String a s)).
  - simpl. now apply IH.
  - simpl. rewrite Ha. simpl. now apply IH.
Qed.

End UrlFacts.

Section LoaderFacts.
Import RepoLoader.
Local Open Scope list_scope.

Lemma append_assoc (s1 s2 s3 : string) : ((s1 ++ s2) ++ s3 = s1 ++ (s2 ++ s3))%string.
Proof.
  induction s1 as [|a s1 IH]; [reflexivity|].
  change (String a ((s1 ++ s2) ++ s3) = String a (s1 ++ (s2 ++ s3)))%string.
  now rewrite IH.
Qed.

(** A string free of [c] and not empty ends in another character. *)
Lemma free_of_last (c : ascii) (s : string) :
  s <> ""%string -> Py.free_of c s = true ->
  exists t x, s = (t ++ String x "")%string /\ x <> c.
Proof.
  induction s as [|a s IH]; intros Hne Hfree; [congruence|].
  simpl in Hfree. apply andb_true_iff in Hfree as [Ha Hs].
  destruct s as [|b s].
  - exists ""%string, a. split; [reflexivity|].
    apply negb_true_iff, Ascii.eqb_neq in Ha. exact Ha.
  - destruct (IH ltac:(discriminate) Hs) as (t & x & -> & Hx).
    exists (String a t), x. split; [reflexivity | exact Hx].
Qed.

(** The name taken from a URL whose last segment is [seg]. *)
Lemma repo_name_last_segment (p seg : string) (n : nat) :
  seg <> ""%string -> Py.free_of "/"%char seg = true ->
  repo_name (p ++ "/" ++ seg ++ Py.replicate_char n "/"%char)%string
  = Py.replace seg ".git" "".
Proof.
  intros Hne Hfree. unfold repo_name.
  destruct (free_of_last "/"%char seg Hne Hfree) as (t & x & Hseg & Hx).
  replace (p ++ "/" ++ seg ++ Py.replicate_char n "/"%char)%string
    with ((p ++ "/" ++ seg) ++ Py.replicate_char n "/"%char)%string
    by (now rewrite !append_assoc).
  rewrite rstrip_char_replicate.
  replace (p ++ "/" ++ seg)%string with ((p ++ "/" ++ t) ++ String x "")%string
    by (rewrite Hseg; now rewrite !append_assoc).
  rewrite rstrip_char_keep by exact Hx.
  replace ((p ++ "/" ++ t) ++ String x "")%string with (p ++ String "/"%char seg)%string
    by (rewrite Hseg; now rewrite !append_assoc).
  now rewrite last_item_after_sep.
Qed.

Lemma in_skipped_dir_prefix (repo_path below : list string) (skip : string) :
  In skip skip_dirs -> In skip repo_path -> in_skipped_dir (repo_path ++ below) = true.
Proof.
  intros Hs Hp. unfold in_skipped_dir. apply existsb_exists. exists skip.
  split; [exact Hs|]. apply existsb_exists. exists skip.
  split; [apply in_or_app; now left | apply String.eqb_refl].
Qed.


Lemma parse_files_app (repo_path : list string) (l1 l2 : list entry) :
  parse_files repo_path (l1 ++ l2)
  = parse_files repo_path l1 ++ parse_files repo_path l2.
Proof.
  induction l1 as [|e l1 IH]; simpl; [reflexivity|].
  destruct (parse_entry repo_path e); simpl; now rewrite IH.
Qed.


End LoaderFacts.

Section LoaderExtras.
Import RepoLoader.
Local Open Scope list_scope.

(** X19. The name taken from a repository URL whose last segment, before
    any trailing slashes, is [a] (not empty, without dot or slash) is [a];
    and when the last segment is [a], then ".git", then [b] (both without
    dot or slash, possibly empty), the name is [a] followed by [b]:
    ".git" is removed wherever it stands, not only at the end. A URL that
    ends in "/.git" gives the empty name. *)
Theorem repo_name_of_url (p a b : string) (n : nat) :
  Py.free_of "."%char a = true -> Py.free_of "/"%char a = true ->
  Py.free_of "."%char b = true -> Py.free_of "/"%char b = true ->
  (a <> ""%string ->
   repo_name (p ++ "/" ++ a ++ Py.replicate_char n "/"%char)%string = a)
  /\ repo_name (p ++ "/" ++ (a ++ ".git" ++ b) ++ Py.replicate_char n "/"%char)%string
     = (a ++ b)%string.
Proof.
  intros Hda Hsa Hdb Hsb. split.
  - intros Hne. rewrite repo_name_last_segment by assumption.
    unfold Py.replace. now apply replace_from_free.
  - rewrite repo_name_last_segment.
    + now apply replace_git_inside.
    + destruct a; discriminate.
    + rewrite !free_of_append, Hsa, Hsb. reflexivity.
Qed.

Lemma repo_name_of_url_witness :
  repo_name "https://github.com/user/repo//" = "repo"%string
  /\ repo_name "https://github.com/user/my.gitrepo/" = "myrepo"%string.
Proof.
  destruct (repo_name_of_url "https://github.com/user" "repo" "" 2) as [H _];
    try reflexivity.
  destruct (repo_name_of_url "https://github.com/user" "my" "repo" 1) as [_ H'];
    try reflexivity.
  split; [apply H; discriminate | exact H'].
Defined.

(** X20. The name taken from a URL never contains a slash, so the clone
    directory [base_dir / repo_name] is [base_dir] itself or a direct
    entry of it. *)
Theorem repo_name_no_slash (repo_url : string) :
  Py.free_of "/"%char (repo_name repo_url) = true.
Proof.
  unfold repo_name, Py.replace. apply replace_from_delete_free.
  pose proof (split_segments_free (Py.rstrip_char repo_url "/"%char) "/"%char) as Hall.
  pose proof (split_nonempty (Py.rstrip_char repo_url "/"%char) "/"%char) as Hne.
  rewrite List.Forall_forall in Hall. apply Hall.
  unfold Py.last_item.
  destruct (exists_last Hne) as (l & x & ->). rewrite last_last.
  apply in_or_app. right. now left.
Qed.

(** X21. When a part of the repository path itself is one of the skipped
    directory names (a repository called "build", "dist", "env", ...),
    [parse_files] returns no document at all, whatever the repository
    holds. *)
Theorem parse_files_under_skipped_name (repo_path : list string) (entries : list entry)
        (skip : string) :
  In skip skip_dirs -> In skip repo_path ->
  parse_files repo_path entries = [].
Proof.
  intros Hs Hp. induction entries as [|e rest IH]; simpl; [reflexivity|].
  unfold parse_entry. rewrite (in_skipped_dir_prefix repo_path (rel e) skip Hs Hp).
  destruct (is_dir e || _); exact IH.
Qed.

Lemma parse_files_under_skipped_name_witness :
  parse_files ["repos"; "build"]%string Spec.tree = [].
Proof.
  apply (parse_files_under_skipped_name ["repos"; "build"]%string Spec.tree "build").
  - simpl. tauto.
  - simpl. tauto.
Defined.



(** X23. A directory, or a file whose reading raises, adds nothing and
    disturbs nothing: the documents are those of the entries before it
    followed by those of the entries after it. *)
Theorem parse_files_skips_unreadable (repo_path : list string)
        (before after : list entry) (e : entry) :
  is_dir e = true \/ read e = None ->
  parse_files repo_path (before ++ e :: after)
  = parse_files repo_path before ++ parse_files repo_path after.
Proof.
  intros He. rewrite parse_files_app. f_equal. simpl.
  assert (Hnone : parse_entry repo_path e = None).
  { unfold parse_entry. destruct He as [Hd|Hr].
    - now rewrite Hd.
    - rewrite Hr. destruct (is_dir e || _); [reflexivity|].
      destruct (in_skipped_dir _); [reflexivity|].
      destruct (negb _); reflexivity. }
  now rewrite Hnone.
Qed.

Lemma parse_files_skips_unreadable_witness :
  parse_files ["repos"; "demo"]%string
    (firstn 4 Spec.tree
       ++ {| rel := ["locked.py"]%string; is_dir := false; read := None |}
       :: skipn 5 Spec.tree)
  = parse_files ["repos"; "demo"]%string (firstn 4 Spec.tree)
      ++ parse_files ["repos"; "demo"]%string (skipn 5 Spec.tree).
Proof.
  apply parse_files_skips_unreadable. right. reflexivity.
Defined.

End LoaderExtras.

(** ** From the loader to the index *)

Section Ingestion.
Import CodeChunker CodeChunkerDocs.
Local Open Scope list_scope.




End Ingestion.

(** ** Citations *)

Section Citations.
Import RAGEngine.
Local Open Scope list_scope.

(** X25. Every citation of [answer_question] carries a preview of at most
    203 characters: the first 200 characters of the cited content, or all
    of it when it is shorter, followed by three dots. *)
Theorem source_preview_length (self : t) (query : string) (retrieved : list (doc * Q)) :
  Forall (fun s => exists e,
              In e retrieved
              /\ src_preview s = (Py.slice_to (content_of (fst e)) 200 ++ "...")%string
              /\ Py.len (src_preview s) = Z.min 200 (Py.len (content_of (fst e))) + 3
              /\ Py.len (src_preview s) <= 203)
         (sources (answer_question self query retrieved)).
Proof.
  unfold answer_question. simpl sources.
  generalize (selected_filepaths (select_chunks_within_limit self retrieved query)) as paths.
  intros paths. rewrite collect_sources_filter.
  apply List.Forall_forall. intros s Hs. apply in_map_iff in Hs as (e & <- & He).
  apply list_elem_of_In, list_elem_of_filter in He as [_ He]. apply list_elem_of_In in He.
  exists e. split; [exact He|]. split; [reflexivity|].
  unfold make_source. simpl src_preview. rewrite len_append.
  unfold Py.slice_to. pose proof (len_nonneg (content_of (fst e))).
  rewrite len_slice_clip by lia. change (Py.len "...") with 3. lia.
Qed.

End Citations.
